(** * Media transcoding pipeline: sample-position resolver, Matroska segment
      parser, conversion controller and ISO-BMFF track serializer.

    A shallow embedding of the TypeScript sources.  JavaScript numbers are
    modelled as [Z]: every quantity involved (byte offsets, sizes, ticks,
    microsecond timestamps, frame counters) is an integer far inside the
    range in which IEEE doubles are exact.  A thrown [Error] is the [Throw]
    arm of [Js.Result]; [null] is [None]. *)

From Stdlib Require Import ZArith List String Bool Lia.
From stdpp Require Import base option list gmap strings.

Set Warnings "-register-all".

Local Open Scope string_scope.
Local Open Scope list_scope.
Local Open Scope Z_scope.

(** ** JavaScript primitives used by the sources *)
Module Js.

Inductive Result (A : Type) : Type :=
| Ok (a : A)
| Throw (msg : string).
Arguments Ok {A} a.
Arguments Throw {A} msg.

Definition bind {A B} (r : Result A) (k : A -> Result B) : Result B :=
  match r with
  | Ok a => k a
  | Throw m => Throw m
  end.

(** [a ?? b] with a possibly-null right operand. *)
Definition nullish {A} (a b : option A) : option A :=
  match a with
  | Some x => Some x
  | None => b
  end.

(** [a ?? d] with a non-null default. *)
Definition nullish_or {A} (a : option A) (d : A) : A :=
  match a with
  | Some x => x
  | None => d
  end.

(** ToInt32: the wrap-around applied to the operands of [>>] and [&]. *)
Definition ToInt32 (x : Z) : Z := (x + 2 ^ 31) mod 2 ^ 32 - 2 ^ 31.

(** [x >> n] (sign-propagating shift on the 32-bit value). *)
Definition sar (x n : Z) : Z := Z.shiftr (ToInt32 x) (n mod 32).

(** [x & y] on 32-bit values. *)
Definition band (x y : Z) : Z := ToInt32 (Z.land (ToInt32 x) (ToInt32 y)).

(** Truthiness of a [number | null]: [null] and [0] are falsy. *)
Definition truthy_num (x : option Z) : bool :=
  match x with
  | Some v => negb (v =? 0)
  | None => false
  end.

(** [!x] for a number. *)
Definition not_num (x : Z) : bool := x =? 0.

(** [Math.round (n / d)] for integers [n] and [d > 0]: round half up. *)
Definition round_div (n d : Z) : Z := (2 * n + d) / (2 * d).

End Js.

Notation "'let*' x ':=' r 'in' k" := (Js.bind r (fun x => k))
  (at level 10, x name, r at level 200, k at level 200).

(** ** Fragmented MP4: sample positions of a [moof] (get-samples-from-moof) *)
Module IsoBmff.
Import Js.

Record TRunSample := {
  sampleDuration : option Z;
  sampleSize : option Z;
  sampleFlags : option Z;
  sampleCompositionTimeOffset : option Z
}.

Record TrunBox := {
  dataOffset : option Z;
  firstSampleFlags : option Z;
  samples : list TRunSample
}.

Record TfhdBox := {
  trackId : Z;
  defaultSampleDuration : option Z;
  defaultSampleSize : option Z;
  defaultSampleFlags : option Z
}.

Record TfdtBox := { baseMediaDecodeTime : Z }.

(** The parse tree, as far as the resolver looks at it. *)
Inductive IsoBaseMediaBox :=
| RegularBox (boxType : string) (boxOffset : Z) (children : list IsoBaseMediaBox)
| TfhdBoxNode (b : TfhdBox)
| TfdtBoxNode (b : TfdtBox)
| TrunBoxNode (b : TrunBox)
| OtherBox (type : string).

Record SamplePosition := {
  offset : Z;
  size : Z;
  isKeyframe : bool;
  dts : Z;
  cts : Z;
  duration : Z
}.

Definition isTraf (b : IsoBaseMediaBox) : bool :=
  match b with
  | RegularBox t _ _ => String.eqb t "traf"
  | _ => false
  end.

Definition boxChildren (b : IsoBaseMediaBox) : list IsoBaseMediaBox :=
  match b with
  | RegularBox _ _ c => c
  | _ => []
  end.

(** Modelled from the spec: the traversal helpers of [./traversal] are not
    part of the sources at hand.  They pick, among the children of a
    [traf], the track-fragment header, the decode-time box and the track
    runs in file order. *)
Definition getTfhdBox (traf : IsoBaseMediaBox) : option TfhdBox :=
  head (omap (fun c => match c with TfhdBoxNode b => Some b | _ => None end)
             (boxChildren traf)).

Definition getTfdtBox (traf : IsoBaseMediaBox) : option TfdtBox :=
  head (omap (fun c => match c with TfdtBoxNode b => Some b | _ => None end)
             (boxChildren traf)).

Definition getTrunBoxes (traf : IsoBaseMediaBox) : list TrunBox :=
  omap (fun c => match c with TrunBoxNode b => Some b | _ => None end)
       (boxChildren traf).

(** The two running variables and the output array of [getSamplesFromTraf]. *)
Record Acc := {
  acc_offset : Z;
  acc_time : Z;
  acc_samples : list SamplePosition
}.

Section Resolver.
(** The traversal helpers, as parameters of the resolver. *)
Variable tfhdOf : IsoBaseMediaBox -> option TfhdBox.
Variable tfdtOf : IsoBaseMediaBox -> option TfdtBox.
Variable trunsOf : IsoBaseMediaBox -> list TrunBox.

(** [sample.sampleFlags ? sample.sampleFlags
       : isFirstSample && trunBox.firstSampleFlags !== null
         ? trunBox.firstSampleFlags : defaultSampleFalgs] *)
Definition resolveFlags (defaultSampleFalgs : option Z) (trunBox : TrunBox)
    (i : Z) (sample : TRunSample) : option Z :=
  if truthy_num (sampleFlags sample) then sampleFlags sample
  else if (i =? 0) && (match firstSampleFlags trunBox with Some _ => true | None => false end)
       then firstSampleFlags trunBox
       else defaultSampleFalgs.

(** [!((sampleFlags >> 16) & 0x1)] *)
Definition keyframeOfFlags (sampleFlags : Z) : bool :=
  not_num (band (sar sampleFlags 16) 1).

(** One iteration of the inner loop; [i] is the index after [i++]. *)
Definition sampleStep (tfhdBox : option TfhdBox) (tfdtBox : option TfdtBox)
    (moofOffset : Z) (trunBox : TrunBox) (i : Z) (sample : TRunSample)
    (st : Acc) : Result Acc :=
  let defaultSampleDuration := tfhdBox ≫= defaultSampleDuration in
  let defaultSampleSize := tfhdBox ≫= defaultSampleSize in
  let defaultSampleFalgs := tfhdBox ≫= defaultSampleFlags in
  match nullish (sampleDuration sample) defaultSampleDuration with
  | None => Throw "Expected duration"
  | Some duration =>
    match nullish (sampleSize sample) defaultSampleSize with
    | None => Throw "Expected size"
    | Some size =>
      match resolveFlags defaultSampleFalgs trunBox i sample with
      | None => Throw "Expected sample flags"
      | Some sampleFlags =>
        let keyframe := keyframeOfFlags sampleFlags in
        let base := nullish_or (baseMediaDecodeTime <$> tfdtBox) 0 in
        let samplePosition := {|
          offset := acc_offset st + nullish_or (dataOffset trunBox) 0 + moofOffset;
          dts := acc_time st + base;
          cts := acc_time st + base;
          duration := duration;
          isKeyframe := keyframe;
          size := size
        |} in
        Ok {| acc_offset := acc_offset st + size;
              acc_time := acc_time st + duration;
              acc_samples := acc_samples st ++ [samplePosition] |}
      end
    end
  end.

(** [for (const sample of trunBox.samples) { i++; ... }], [i] being the
    value of the counter before the increment. *)
Fixpoint sampleLoop (tfhdBox : option TfhdBox) (tfdtBox : option TfdtBox)
    (moofOffset : Z) (trunBox : TrunBox) (i : Z) (rows : list TRunSample)
    (st : Acc) : Result Acc :=
  match rows with
  | [] => Ok st
  | sample :: rest =>
    let* st' := sampleStep tfhdBox tfdtBox moofOffset trunBox (i + 1) sample st in
    sampleLoop tfhdBox tfdtBox moofOffset trunBox (i + 1) rest st'
  end.

(** [for (const trunBox of trunBoxes) { let i = -1; ... }] *)
Fixpoint trunLoop (tfhdBox : option TfhdBox) (tfdtBox : option TfdtBox)
    (moofOffset : Z) (trunBoxes : list TrunBox) (st : Acc) : Result Acc :=
  match trunBoxes with
  | [] => Ok st
  | trunBox :: rest =>
    let* st' := sampleLoop tfhdBox tfdtBox moofOffset trunBox (-1) (samples trunBox) st in
    trunLoop tfhdBox tfdtBox moofOffset rest st'
  end.

Definition getSamplesFromTraf (trafSegment : IsoBaseMediaBox) (moofOffset : Z)
    : Result (list SamplePosition) :=
  if negb (isTraf trafSegment) then Throw "Expected traf-box"
  else
    let tfhdBox := tfhdOf trafSegment in
    let tfdtBox := tfdtOf trafSegment in
    let trunBoxes := trunsOf trafSegment in
    let* st := trunLoop tfhdBox tfdtBox moofOffset trunBoxes
            {| acc_offset := 0; acc_time := 0; acc_samples := [] |} in
    Ok (acc_samples st).

(** [trafs.map(...)] followed by [.flat(1)]; an exception in one [traf]
    aborts the whole call. *)
Fixpoint mapTrafs (moofOffset : Z) (trackId' : Z) (trafs : list IsoBaseMediaBox)
    : Result (list SamplePosition) :=
  match trafs with
  | [] => Ok []
  | traf :: rest =>
    let* here := (if match tfhdOf traf with
                | Some h => trackId h =? trackId'
                | None => false
                end
             then getSamplesFromTraf traf moofOffset
             else Ok []) in
    let* others := mapTrafs moofOffset trackId' rest in
    Ok (here ++ others)
  end.

Definition getSamplesFromMoof (segment : IsoBaseMediaBox) (trackId' : Z)
    : Result (list SamplePosition) :=
  match segment with
  | RegularBox _ segmentOffset children =>
    mapTrafs segmentOffset trackId' (filter (fun c => isTraf c = true) children)
  | _ => Throw "Expected moof-box"
  end.

End Resolver.

(** The rows of a [traf] in emission order, each with the run it sits in. *)
Definition flatRows (trunBoxes : list TrunBox) : list (TrunBox * TRunSample) :=
  flat_map (fun t => map (pair t) (samples t)) trunBoxes.

Definition sumZ (l : list Z) : Z := fold_right Z.add 0 l.

(** The fallback chain in the words of the specification: the explicit
    per-sample value when present, else (first sample of the run only) the
    run's [firstSampleFlags] when present, else the [tfhd] default. *)
Definition specResolveFlags (defaultFlags : option Z) (trunBox : TrunBox)
    (i : Z) (sample : TRunSample) : option Z :=
  match sampleFlags sample with
  | Some f => Some f
  | None =>
    match (if i =? 0 then firstSampleFlags trunBox else None) with
    | Some f => Some f
    | None => defaultFlags
    end
  end.

(** What holds of the running variables after the rows [rows] have been
    consumed: one output per row, the offset and the clock are the sums of
    what was emitted, and every output sits where the sums before it say. *)
Definition Consumed (base moofOffset : Z) (rows : list (TrunBox * TRunSample))
    (st : Acc) : Prop :=
  length (acc_samples st) = length rows
  /\ acc_offset st = sumZ (map size (acc_samples st))
  /\ acc_time st = sumZ (map duration (acc_samples st))
  /\ forall (k : nat) (s : SamplePosition),
       acc_samples st !! k = Some s ->
       exists t row,
         rows !! k = Some (t, row)
         /\ dts s = base + sumZ (map duration (take k (acc_samples st)))
         /\ offset s = moofOffset + nullish_or (dataOffset t) 0
                       + sumZ (map size (take k (acc_samples st)))
         /\ cts s = dts s.

(** *** Sample inputs *)

Definition row (d s : Z) : TRunSample :=
  {| sampleDuration := Some d; sampleSize := Some s;
     sampleFlags := None; sampleCompositionTimeOffset := None |}.

(** A fragment of three samples: decode time 90000, durations 3000, sizes
    4096, 1024 and 1024; the first sample is a sync sample through
    [firstSampleFlags], the others take the non-sync default. *)
Definition scenarioTraf (trunDataOffset : Z) : IsoBaseMediaBox :=
  RegularBox "traf" 0
    [ TfhdBoxNode {| trackId := 1; defaultSampleDuration := None;
                     defaultSampleSize := None;
                     defaultSampleFlags := Some 0x1010000 |};
      TfdtBoxNode {| baseMediaDecodeTime := 90000 |};
      TrunBoxNode {| dataOffset := Some trunDataOffset;
                     firstSampleFlags := Some 0x2000000;
                     samples := [row 3000 4096; row 3000 1024; row 3000 1024] |} ].

Definition scenarioMoof (moofOffset trunDataOffset : Z) : IsoBaseMediaBox :=
  RegularBox "moof" moofOffset [OtherBox "mfhd"; scenarioTraf trunDataOffset].

(** A run whose only sample carries explicit flags equal to 0 (a sync
    sample), under a [tfhd] whose default flags mark non-sync samples. *)
Definition zeroFlagsSample : TRunSample :=
  {| sampleDuration := Some 3000; sampleSize := Some 100;
     sampleFlags := Some 0; sampleCompositionTimeOffset := None |}.

Definition zeroFlagsRun : TrunBox :=
  {| dataOffset := Some 8; firstSampleFlags := None;
     samples := [zeroFlagsSample] |}.

(** Two runs in one fragment, the rows of the second carrying
    composition-time offsets. *)
Definition twoRunsTraf : IsoBaseMediaBox :=
  RegularBox "traf" 0
    [ TfhdBoxNode {| trackId := 1; defaultSampleDuration := Some 1000;
                     defaultSampleSize := None;
                     defaultSampleFlags := Some 0x1010000 |};
      TrunBoxNode {| dataOffset := Some 100; firstSampleFlags := Some 0x2000000;
                     samples := [row 1000 10; row 1000 20] |};
      TrunBoxNode {| dataOffset := Some 500; firstSampleFlags := None;
                     samples := [ {| sampleDuration := None; sampleSize := Some 30;
                                     sampleFlags := None;
                                     sampleCompositionTimeOffset := Some 2000 |};
                                  {| sampleDuration := None; sampleSize := Some 40;
                                     sampleFlags := None;
                                     sampleCompositionTimeOffset := Some (-1000) |} ] |} ].

Definition zeroFlagsTraf : IsoBaseMediaBox :=
  RegularBox "traf" 0
    [ TfhdBoxNode {| trackId := 1; defaultSampleDuration := None;
                     defaultSampleSize := None;
                     defaultSampleFlags := Some 0x1010000 |};
      TrunBoxNode zeroFlagsRun ].

(** The same run under a [tfhd] without default flags. *)
Definition zeroFlagsTrafNoDefault : IsoBaseMediaBox :=
  RegularBox "traf" 0
    [ TfhdBoxNode {| trackId := 1; defaultSampleDuration := None;
                     defaultSampleSize := None;
                     defaultSampleFlags := None |};
      TrunBoxNode zeroFlagsRun ].

(** *** Row-wise view of the resolver *)

Definition present {A} (x : option A) : bool :=
  match x with
  | Some _ => true
  | None => false
  end.

(** A row goes through the three checks of the loop body. *)
Definition rowResolves (tfhdBox : option TfhdBox) (trunBox : TrunBox) (i : Z)
    (sample : TRunSample) : bool :=
  present (nullish (sampleDuration sample) (tfhdBox ≫= defaultSampleDuration))
  && present (nullish (sampleSize sample) (tfhdBox ≫= defaultSampleSize))
  && present (resolveFlags (tfhdBox ≫= defaultSampleFlags) trunBox i sample).

(** All rows of a run go through, [i] being the counter before the first. *)
Fixpoint rowsResolve (tfhdBox : option TfhdBox) (trunBox : TrunBox) (i : Z)
    (rows : list TRunSample) : bool :=
  match rows with
  | [] => true
  | sample :: rest =>
    rowResolves tfhdBox trunBox (i + 1) sample
    && rowsResolve tfhdBox trunBox (i + 1) rest
  end.

Definition runsResolve (tfhdBox : option TfhdBox) (trunBoxes : list TrunBox) : bool :=
  forallb (fun t => rowsResolve tfhdBox t (-1) (samples t)) trunBoxes.

(** The rows of a run with their index in the run, counted from [i + 1]. *)
Fixpoint indexFrom (t : TrunBox) (i : Z) (rows : list TRunSample)
    : list (TrunBox * Z * TRunSample) :=
  match rows with
  | [] => []
  | sample :: rest => (t, i + 1, sample) :: indexFrom t (i + 1) rest
  end.

Definition indexedRows (trunBoxes : list TrunBox) : list (TrunBox * Z * TRunSample) :=
  flat_map (fun t => indexFrom t (-1) (samples t)) trunBoxes.

(** A sample position carries what its row resolves to. *)
Definition ResolvedFrom (tfhdBox : option TfhdBox) (r : TrunBox * Z * TRunSample)
    (s : SamplePosition) : Prop :=
  let '(t, i, sample) := r in
  nullish (sampleDuration sample) (tfhdBox ≫= defaultSampleDuration) = Some (duration s)
  /\ nullish (sampleSize sample) (tfhdBox ≫= defaultSampleSize) = Some (size s)
  /\ exists flags,
       resolveFlags (tfhdBox ≫= defaultSampleFlags) t i sample = Some flags
       /\ isKeyframe s = negb (Z.testbit flags 16).

(** A sample position moved by [delta] bytes. *)
Definition shiftOffset (delta : Z) (s : SamplePosition) : SamplePosition :=
  {| offset := offset s + delta; size := size s; isKeyframe := isKeyframe s;
     dts := dts s; cts := cts s; duration := duration s |}.

Definition mapOk {A B} (f : A -> B) (r : Result A) : Result B :=
  match r with
  | Ok a => Ok (f a)
  | Throw m => Throw m
  end.

Definition isOk {A} (r : Result A) : bool :=
  match r with
  | Ok _ => true
  | Throw _ => false
  end.

Definition shiftAcc (delta : Z) (st : Acc) : Acc :=
  {| acc_offset := acc_offset st; acc_time := acc_time st;
     acc_samples := map (shiftOffset delta) (acc_samples st) |}.

(** A fragment header with all three defaults. *)
Definition fullDefaults : TfhdBox :=
  {| trackId := 1; defaultSampleDuration := Some 1000;
     defaultSampleSize := Some 50; defaultSampleFlags := Some 0x1010000 |}.

Definition bareRow : TRunSample :=
  {| sampleDuration := None; sampleSize := None;
     sampleFlags := None; sampleCompositionTimeOffset := None |}.

(** A fragment whose rows carry nothing of their own. *)
Definition bareTraf : IsoBaseMediaBox :=
  RegularBox "traf" 0
    [ TfhdBoxNode fullDefaults;
      TrunBoxNode {| dataOffset := None; firstSampleFlags := None;
                     samples := [bareRow; bareRow] |} ].

(** A fragment of another track whose row lacks a duration. *)
Definition brokenTrafOfTrack2 : IsoBaseMediaBox :=
  RegularBox "traf" 0
    [ TfhdBoxNode {| trackId := 2; defaultSampleDuration := None;
                     defaultSampleSize := None; defaultSampleFlags := None |};
      TrunBoxNode {| dataOffset := None; firstSampleFlags := None;
                     samples := [bareRow] |} ].

End IsoBmff.

(** ** Matroska: [expectSegment] and [parseSegment] (parse-segment) *)
Module Matroska.
Import Js.

(** Modelled from the spec: the byte iterator ([buffer-iterator]) is not
    part of the sources at hand.  It is a cursor over the bytes buffered so
    far; [counter] is the offset of the next byte to read. *)
Record BufferIterator := {
  data : list Z;
  counter : Z
}.

Definition byteLength (it : BufferIterator) : Z := Z.of_nat (length (data it)).
Definition getOffset (it : BufferIterator) : Z := counter it.
Definition bytesRemaining (it : BufferIterator) : Z := byteLength it - counter it.
Definition decrement (n : Z) (it : BufferIterator) : BufferIterator :=
  {| data := data it; counter := counter it - n |}.

Inductive FrameType := key | delta.

(** A video sample still lacking its [type] ([block.videoSample]). *)
Record PartialVideoSample := {
  p_trackId : Z;
  p_timestamp : Z;
  p_data : list Z
}.

Record VideoSample := {
  trackId : Z;
  timestamp : Z;
  sampleData : list Z;
  type : FrameType
}.

Inductive MatroskaSegment :=
| MainSegment (children : list MatroskaSegment)
| ClusterSegment (children : list MatroskaSegment)
| BlockGroupSegment (children : list MatroskaSegment)
| SimpleBlockOrBlockSegment (videoSample : option PartialVideoSample)
| ReferenceBlockSegment (referenceBlock : Z)
| OtherSegment (segmentType : string).

(** Calls made on [parserContext.parserState]. *)
Inductive ParserEvent :=
| OnVideoSample (trackId : Z) (frame : VideoSample)
| OnAudioSample (trackId : Z)
| OtherParserEvent (what : string).

(** [continueParsing]: either the replay of [expectSegment] on the same
    iterator, or the continuation handed back by [expectChildren]. *)
Inductive Continuation :=
| ReplayExpectSegment
| ResumeChildren (children : list MatroskaSegment) (inner : Continuation).

Inductive ParseResult :=
| Done (segments : list MatroskaSegment)
| Incomplete (segments : list MatroskaSegment) (continueParsing : Continuation).

Definition isIncomplete (r : ParseResult) : bool :=
  match r with
  | Incomplete _ _ => true
  | Done _ => false
  end.

(** What a parsing call leaves behind: its value, the iterator and the
    parser-state calls it made. *)
Definition Parsed (A : Type) : Type := Result (A * BufferIterator * list ParserEvent).

Definition isBlock (c : MatroskaSegment) : bool :=
  match c with
  | SimpleBlockOrBlockSegment _ => true
  | _ => false
  end.

Definition isReferenceBlock (c : MatroskaSegment) : bool :=
  match c with
  | ReferenceBlockSegment _ => true
  | _ => false
  end.

Definition videoSampleOf (c : MatroskaSegment) : option PartialVideoSample :=
  match c with
  | SimpleBlockOrBlockSegment v => v
  | _ => None
  end.

(** [{...partialVideoSample, type}] *)
Definition completeFrame (p : PartialVideoSample) (t : FrameType) : VideoSample :=
  {| trackId := p_trackId p;
     timestamp := p_timestamp p;
     sampleData := p_data p;
     type := t |}.

Section Parser.
(** Readers and leaf parsers that live outside the sources at hand. *)
Variable getMatroskaSegmentId : BufferIterator -> option string * BufferIterator.
Variable getVint : BufferIterator -> option Z * BufferIterator.
Variable expectChildren :
  BufferIterator -> Z -> (list MatroskaSegment -> MatroskaSegment) -> Parsed ParseResult.
Variable parseBlockGroupSegment :
  BufferIterator -> Z -> Parsed (list MatroskaSegment).
Variable parseOtherSegment :
  string -> BufferIterator -> Z -> Z -> Parsed MatroskaSegment.

(** The ['0xa0'] branch of [parseSegment], after the block group has
    been parsed. *)
Definition blockGroupSample (children : list MatroskaSegment)
    : Result (list ParserEvent) :=
  match List.find isBlock children with
  | None => Throw "Expected block segment"
  | Some block =>
    let hasReferenceBlock := List.find isReferenceBlock children in
    match videoSampleOf block with
    | Some partialVideoSample =>
      Ok [OnVideoSample (p_trackId partialVideoSample)
            (completeFrame partialVideoSample
               (match hasReferenceBlock with Some _ => delta | None => key end))]
    | None => Ok []
    end
  end.

(** [parseSegment].  The branches for the other element ids come first in
    the source; none of them tests for ['0xa0'], and they are all routed
    to [parseOtherSegment] here. *)
Definition parseSegment (segmentId : string) (iterator : BufferIterator)
    (length headerReadSoFar : Z) : Parsed MatroskaSegment :=
  if length =? 0 then
    Throw ("Expected length of " ++ segmentId ++ " to be greater than 0")%string
  else if String.eqb segmentId "0xa0" then
    let* r := parseBlockGroupSegment iterator length in
    let '(children, iterator', ev) := r in
    let* own := blockGroupSample children in
    Ok (BlockGroupSegment children, iterator', ev ++ own)
  else parseOtherSegment segmentId iterator length headerReadSoFar.

Definition expectSegment (iterator : BufferIterator) : Parsed ParseResult :=
  let offset := getOffset iterator in
  if bytesRemaining iterator =? 0 then
    Ok (Incomplete [] ReplayExpectSegment, iterator, [])
  else
    let '(segmentId, iterator) := getMatroskaSegmentId iterator in
    match segmentId with
    | None =>
      let iterator := decrement (getOffset iterator - offset) iterator in
      Ok (Incomplete [] ReplayExpectSegment, iterator, [])
    | Some segmentId =>
      let '(length, iterator) := getVint iterator in
      match length with
      | None =>
        let iterator := decrement (getOffset iterator - offset) iterator in
        Ok (Incomplete [] ReplayExpectSegment, iterator, [])
      | Some length =>
        let bytesRemainingNow := byteLength iterator - getOffset iterator in
        if String.eqb segmentId "0x18538067" || String.eqb segmentId "0x1f43b675" then
          let* r := expectChildren iterator length
                      (if String.eqb segmentId "0x18538067"
                       then MainSegment else ClusterSegment) in
          let '(main, iterator, ev) := r in
          match main with
          | Incomplete segments continueParsing =>
            Ok (Incomplete segments continueParsing, iterator, ev)
          | Done segments => Ok (Done segments, iterator, ev)
          end
        else if bytesRemainingNow <? length then
          let bytesRead := getOffset iterator - offset in
          let iterator := decrement bytesRead iterator in
          Ok (Incomplete [] ReplayExpectSegment, iterator, [])
        else
          let* r := parseSegment segmentId iterator length
                      (getOffset iterator - offset) in
          let '(segment, iterator, ev) := r in
          Ok (Done [segment], iterator, ev)
      end
    end.

(** Which of its own checks made [expectSegment] stop, if any: the four
    places where it returns ['incomplete'] with a replay of itself. *)
Definition isContainerId (segmentId : string) : bool :=
  String.eqb segmentId "0x18538067" || String.eqb segmentId "0x1f43b675".

(** The iterator once the element id and the size have been read. *)
Definition afterHeader (iterator : BufferIterator) : BufferIterator :=
  snd (getVint (snd (getMatroskaSegmentId iterator))).

Definition headerOf (iterator : BufferIterator) : option (string * Z) :=
  let '(segmentId, iterator) := getMatroskaSegmentId iterator in
  match segmentId with
  | None => None
  | Some segmentId =>
    match fst (getVint iterator) with
    | None => None
    | Some length => Some (segmentId, length)
    end
  end.

End Parser.

(** *** A concrete reader, for running the parser on bytes *)

Definition hexDigit (n : Z) : string :=
  String.substring (Z.to_nat n) 1 "0123456789abcdef".

(** [b.toString(16).padStart(2, '0')] *)
Definition hexByte (b : Z) : string :=
  (hexDigit (b / 16) ++ hexDigit (b mod 16))%string.

Definition hexId (bytes : list Z) : string :=
  ("0x" ++ String.concat EmptyString (map hexByte bytes))%string.

(** Width of a VINT from its leading byte: one more than the number of
    leading zero bits. *)
Definition vintWidth (first : Z) : option nat :=
  if 128 <=? first then Some 1%nat
  else if 64 <=? first then Some 2%nat
  else if 32 <=? first then Some 3%nat
  else if 16 <=? first then Some 4%nat
  else if 8 <=? first then Some 5%nat
  else if 4 <=? first then Some 6%nat
  else if 2 <=? first then Some 7%nat
  else if 1 <=? first then Some 8%nat
  else None.

Definition bytesAt (it : BufferIterator) (n : nat) : list Z :=
  take n (drop (Z.to_nat (counter it)) (data it)).

Definition advance (n : Z) (it : BufferIterator) : BufferIterator :=
  {| data := data it; counter := counter it + n |}.

Definition bigEndian (bytes : list Z) : Z :=
  fold_left (fun acc b => acc * 256 + b) bytes 0.

(** Modelled from the spec: [read_matroska_id] reads a VINT and keeps its
    width marker; the id is the hexadecimal spelling of the bytes read.
    When the bytes of the id are not all buffered the result is [null] and
    the leading byte stays consumed. *)
Definition readMatroskaSegmentId (it : BufferIterator) : option string * BufferIterator :=
  match bytesAt it 1 with
  | [first] =>
    match vintWidth first with
    | Some w =>
      if Z.of_nat w <=? bytesRemaining it
      then (Some (hexId (bytesAt it w)), advance (Z.of_nat w) it)
      else (None, advance 1 it)
    | None => (None, advance 1 it)
    end
  | _ => (None, it)
  end.

(** Modelled from the spec: [read_vint] finds the width from the first set
    bit of the leading byte, masks the marker off and concatenates the
    remaining bytes.  When they are not all buffered the result is [null]
    and the leading byte stays consumed. *)
Definition readVint (it : BufferIterator) : option Z * BufferIterator :=
  match bytesAt it 1 with
  | [first] =>
    match vintWidth first with
    | Some w =>
      if Z.of_nat w <=? bytesRemaining it
      then (Some (bigEndian (bytesAt it w) - 2 ^ (7 * Z.of_nat w)), advance (Z.of_nat w) it)
      else (None, advance 1 it)
    | None => (Some 0, advance 1 it)
    end
  | _ => (None, it)
  end.

(** Modelled from the spec: [expectChildren] ([segments/parse-children]) is
    not part of the sources at hand.  It parses child elements one after
    the other with [expectSegment] until [length] bytes are consumed; when
    a child is incomplete it stops there and reports ['incomplete'] with
    the children parsed so far kept in its continuation. *)
Fixpoint childrenLoop (expectSeg : BufferIterator -> Parsed ParseResult)
    (fuel : nat) (startOffset length : Z)
    (wrap : list MatroskaSegment -> MatroskaSegment)
    (children : list MatroskaSegment) (it : BufferIterator)
    (ev : list ParserEvent) : Parsed ParseResult :=
  match fuel with
  | O => Throw "children loop: out of fuel"
  | S fuel' =>
    if getOffset it <? startOffset + length then
      let* r := expectSeg it in
      let '(res, it', ev') := r in
      match res with
      | Incomplete segs k =>
        Ok (Incomplete segs (ResumeChildren children k), it', ev ++ ev')
      | Done segs =>
        childrenLoop expectSeg fuel' startOffset length wrap
          (children ++ segs) it' (ev ++ ev')
      end
    else Ok (Done [wrap children], it, ev)
  end.

(** Modelled from the spec: a leaf element is consumed by skipping its
    payload. *)
Definition skipLeaf (segmentId : string) (it : BufferIterator)
    (length headerReadSoFar : Z) : Parsed MatroskaSegment :=
  Ok (OtherSegment segmentId, advance length it, []).

(** The parser closed over the concrete readers; [fuel] bounds the nesting
    depth and the number of children per container. *)
Fixpoint expectSegmentOn (fuel : nat) (it : BufferIterator) : Parsed ParseResult :=
  match fuel with
  | O => Throw "expectSegment: out of fuel"
  | S fuel' =>
    expectSegment readMatroskaSegmentId readVint
      (fun it' length wrap =>
         childrenLoop (expectSegmentOn fuel') fuel' (getOffset it') length wrap [] it' [])
      (fun _ _ => Throw "block groups are not read by this reader")
      skipLeaf it
  end.

(** *** Sample inputs *)

(** A Segment header (id [0x18538067], size 5) followed by the first two
    bytes of a child: id [0xd7], size 1, payload not yet buffered. *)
Definition partialSegment : BufferIterator :=
  {| data := [0x18; 0x53; 0x80; 0x67; 0x85; 0xd7; 0x81]; counter := 0 |}.

(** A leaf (id [0xd7], size 1) whose payload is not yet buffered, read from
    offset 5 of the same bytes. *)
Definition partialLeaf : BufferIterator :=
  {| data := [0x18; 0x53; 0x80; 0x67; 0x85; 0xd7; 0x81]; counter := 5 |}.

Definition sampleOnTrack1 : PartialVideoSample :=
  {| p_trackId := 1; p_timestamp := 1017; p_data := [1; 2; 3] |}.

(** A block-group parser that hands back the given children. *)
Definition fixedBlockGroup (children : list MatroskaSegment)
    : BufferIterator -> Z -> Parsed (list MatroskaSegment) :=
  fun it length => Ok (children, advance length it, []).

(** An element with id [0xd7] and size 0, fully buffered. *)
Definition emptyLeaf : BufferIterator :=
  {| data := [0xd7; 0x80]; counter := 0 |}.

End Matroska.

(** ** The conversion controller ([convertMedia]) *)
Module ConvertMedia.
Import Js.

Record ConvertMediaState := {
  decodedVideoFrames : Z;
  decodedAudioFrames : Z;
  encodedVideoFrames : Z;
  encodedAudioFrames : Z
}.

(** [EncodedVideoChunk] / [EncodedAudioChunk], as far as the controller
    reads them: [timestamp] and the nullable [duration], in microseconds. *)
Record EncodedChunk := {
  timestamp : Z;
  duration : option Z
}.

Inductive JsError :=
| TypeError (message : string)
| Error (message : string) (cause : option string).

(** Calls that leave the controller: muxer state, parser, codecs and the
    progress observer.  The observer receives an object reference. *)
Inductive Effect :=
| CreateMedia
| ParseMedia
| AddTrack (kind : string)
| AddSample (chunk : EncodedChunk) (trackNumber : Z)
| UpdateDuration (newDuration : Z)
| EncodeFrame (kind : string)
| CloseFrame
| AddWaitForFinishPromise
| MediaStateUpdate (state : nat).

(** The object store: [convertMediaState] and every object literal built
    for the observer live here, each under its own reference. *)
Record World := {
  heap : gmap nat ConvertMediaState;
  nextRef : nat;
  trace : list Effect
}.

Definition emptyWorld : World := {| heap := ∅; nextRef := 0%nat; trace := [] |}.

Definition emit (e : Effect) (w : World) : World :=
  {| heap := heap w; nextRef := nextRef w; trace := trace w ++ [e] |}.

(** An object literal: a fresh reference holding the given fields. *)
Definition alloc (o : ConvertMediaState) (w : World) : nat * World :=
  (nextRef w,
   {| heap := <[nextRef w := o]> (heap w); nextRef := S (nextRef w); trace := trace w |}).

Definition zeroState : ConvertMediaState :=
  {| decodedVideoFrames := 0; decodedAudioFrames := 0;
     encodedVideoFrames := 0; encodedAudioFrames := 0 |}.

Definition readState (r : nat) (w : World) : ConvertMediaState :=
  default zeroState (heap w !! r).

(** In-place update of the object behind a reference. *)
Definition modify (r : nat) (f : ConvertMediaState -> ConvertMediaState) (w : World) : World :=
  {| heap := <[r := f (readState r w)]> (heap w); nextRef := nextRef w; trace := trace w |}.

Definition incEncodedVideoFrames (s : ConvertMediaState) : ConvertMediaState :=
  {| decodedVideoFrames := decodedVideoFrames s;
     decodedAudioFrames := decodedAudioFrames s;
     encodedVideoFrames := encodedVideoFrames s + 1;
     encodedAudioFrames := encodedAudioFrames s |}.

Definition incEncodedAudioFrames (s : ConvertMediaState) : ConvertMediaState :=
  {| decodedVideoFrames := decodedVideoFrames s;
     decodedAudioFrames := decodedAudioFrames s;
     encodedVideoFrames := encodedVideoFrames s;
     encodedAudioFrames := encodedAudioFrames s + 1 |}.

Definition incDecodedVideoFrames (s : ConvertMediaState) : ConvertMediaState :=
  {| decodedVideoFrames := decodedVideoFrames s + 1;
     decodedAudioFrames := decodedAudioFrames s;
     encodedVideoFrames := encodedVideoFrames s;
     encodedAudioFrames := encodedAudioFrames s |}.

Definition incDecodedAudioFrames (s : ConvertMediaState) : ConvertMediaState :=
  {| decodedVideoFrames := decodedVideoFrames s;
     decodedAudioFrames := decodedAudioFrames s + 1;
     encodedVideoFrames := encodedVideoFrames s;
     encodedAudioFrames := encodedAudioFrames s |}.

(** [onMediaStateUpdate?.({...convertMediaState})]: the spread builds a new
    object; nothing happens without an observer. *)
Definition notifySpread (hasObserver : bool) (convertMediaState : nat) (w : World) : World :=
  if hasObserver then
    let '(copy, w) := alloc (readState convertMediaState w) w in
    emit (MediaStateUpdate copy) w
  else w.

(** [onMediaStateUpdate?.(convertMediaState)]: the object itself is passed. *)
Definition notifySame (hasObserver : bool) (convertMediaState : nat) (w : World) : World :=
  if hasObserver then emit (MediaStateUpdate convertMediaState) w else w.

Section Callbacks.
Variable hasObserver : bool.
(** Reference of the [convertMediaState] constant. *)
Variable convertMediaState : nat.

(** [onChunk] of the video encoder. *)
Definition videoOnChunk (trackNumber : Z) (chunk : EncodedChunk) (w : World) : World :=
  let w := emit (AddSample chunk trackNumber) w in
  let newDuration := round_div (timestamp chunk + nullish_or (duration chunk) 0) 1000 in
  let w := emit (UpdateDuration newDuration) w in
  let w := modify convertMediaState incEncodedVideoFrames w in
  notifySpread hasObserver convertMediaState w.

(** [onFrame] of the video decoder (without a user frame hook). *)
Definition videoOnFrame (w : World) : World :=
  let w := emit (EncodeFrame "video") w in
  let w := modify convertMediaState incDecodedVideoFrames w in
  let w := notifySpread hasObserver convertMediaState w in
  emit CloseFrame w.

(** [onChunk] of the audio encoder. *)
Definition audioOnChunk (trackNumber : Z) (chunk : EncodedChunk) (w : World) : World :=
  let w := emit (AddSample chunk trackNumber) w in
  let w := modify convertMediaState incEncodedAudioFrames w in
  notifySpread hasObserver convertMediaState w.

(** [onFrame] of the audio decoder. *)
Definition audioOnFrame (w : World) : World :=
  let w := emit (EncodeFrame "audio") w in
  let w := modify convertMediaState incDecodedAudioFrames w in
  let w := notifySame hasObserver convertMediaState w in
  emit CloseFrame w.

(** [onVideoTrack], up to the sample handler it returns ([true]) or the
    [null] it returns when an encoder or decoder cannot be created. *)
Definition onVideoTrack (videoEncoderOk videoDecoderOk : bool) (w : World) : bool * World :=
  let w := emit (AddTrack "video") w in
  if negb videoEncoderOk then (false, notifySpread hasObserver convertMediaState w)
  else if negb videoDecoderOk then (false, notifySpread hasObserver convertMediaState w)
  else (true, emit AddWaitForFinishPromise w).

(** [onAudioTrack], likewise. *)
Definition onAudioTrack (audioEncoderOk audioDecoderOk : bool) (w : World) : bool * World :=
  let w := emit (AddTrack "audio") w in
  if negb audioEncoderOk then (false, notifySpread hasObserver convertMediaState w)
  else if negb audioDecoderOk then (false, notifySame hasObserver convertMediaState w)
  else (true, emit AddWaitForFinishPromise w).

End Callbacks.

(** What [convertMedia] hands back: a promise already rejected, or the
    pending promise that the parser settles later. *)
Inductive Outcome :=
| Rejected (e : JsError)
| Pending (convertMediaState : nat).

(** The double-quote character, for the messages below. *)
Definition dq : string := String (Ascii.ascii_of_nat 34) EmptyString.

(** [convertMedia], from its entry to the [return promise]. *)
Definition convertMedia (to videoCodec audioCodec : string) (w : World) : Outcome * World :=
  if negb (String.eqb to "webm") then
    (Rejected (TypeError
       ("Only `to: " ++ dq ++ "webm" ++ dq ++ "` is supported currently")%string), w)
  else if negb (String.eqb audioCodec "opus") then
    (Rejected (TypeError
       ("Only `audioCodec: " ++ dq ++ "opus" ++ dq ++ "` is supported currently")%string), w)
  else if negb (String.eqb videoCodec "vp8") then
    (Rejected (TypeError
       ("Only `videoCodec: " ++ dq ++ "vp8" ++ dq ++ "` is supported currently")%string), w)
  else
    let '(convertMediaState, w) := alloc zeroState w in
    let w := emit CreateMedia w in
    let w := emit ParseMedia w in
    (Pending convertMediaState, w).

(** The output duration in the words of the specification: it starts at 0
    and every update replaces it by the maximum of itself and the new
    value. *)
Definition specDuration (t : list Effect) : Z :=
  fold_left (fun d e => match e with UpdateDuration n => Z.max d n | _ => d end) t 0.

Definition chunkEnd (c : EncodedChunk) : Z := timestamp c + nullish_or (duration c) 0.

Definition isUpdateDuration (e : Effect) : bool :=
  match e with
  | UpdateDuration _ => true
  | _ => false
  end.

Definition deliveries (t : list Effect) : list nat :=
  omap (fun e => match e with MediaStateUpdate r => Some r | _ => None end) t.

(** *** Sample inputs *)

(** The world right after [convertMedia] accepted its arguments: the
    counters live under reference 0. *)
Definition startedWorld : World := snd (convertMedia "webm" "vp8" "opus" emptyWorld).

Definition videoChunk : EncodedChunk := {| timestamp := 1000000; duration := Some 33333 |}.
Definition audioChunk : EncodedChunk := {| timestamp := 5000000; duration := Some 20000 |}.

(** *** Sequences of codec callbacks *)

Inductive Callback :=
| VideoChunk (trackNumber : Z) (chunk : EncodedChunk)
| VideoFrame
| AudioChunk (trackNumber : Z) (chunk : EncodedChunk)
| AudioFrame.

Definition runCallback (hasObserver : bool) (convertMediaState : nat)
    (cb : Callback) (w : World) : World :=
  match cb with
  | VideoChunk n c => videoOnChunk hasObserver convertMediaState n c w
  | VideoFrame => videoOnFrame hasObserver convertMediaState w
  | AudioChunk n c => audioOnChunk hasObserver convertMediaState n c w
  | AudioFrame => audioOnFrame hasObserver convertMediaState w
  end.

(** The callbacks run one after the other, as the codecs invoke them. *)
Definition runCallbacks (hasObserver : bool) (convertMediaState : nat)
    (cbs : list Callback) (w : World) : World :=
  fold_left (fun w cb => runCallback hasObserver convertMediaState cb w) cbs w.

Definition isVideoChunk (cb : Callback) : bool :=
  match cb with VideoChunk _ _ => true | _ => false end.
Definition isVideoFrame (cb : Callback) : bool :=
  match cb with VideoFrame => true | _ => false end.
Definition isAudioChunk (cb : Callback) : bool :=
  match cb with AudioChunk _ _ => true | _ => false end.
Definition isAudioFrame (cb : Callback) : bool :=
  match cb with AudioFrame => true | _ => false end.

Definition countOf (p : Callback -> bool) (cbs : list Callback) : Z :=
  Z.of_nat (length (List.filter p cbs)).

(** The callbacks that hand the observer a spread of the counters. *)
Definition spreads (cb : Callback) : bool := negb (isAudioFrame cb).

(** *** The observer as code of the caller

    [onMediaStateUpdate] is a function of the caller: it may keep every
    object it is handed and write to it, during the call or at any later
    moment.  A step of a run is a codec callback or such a write; the observer
    can only write through a reference it was handed. *)
Inductive Step :=
| Call (cb : Callback)
| ObserverWrites (r : nat) (f : ConvertMediaState -> ConvertMediaState).

Definition wasDelivered (r : nat) (w : World) : bool :=
  existsb (Nat.eqb r) (deliveries (trace w)).

Definition runStep (hasObserver : bool) (convertMediaState : nat)
    (s : Step) (w : World) : World :=
  match s with
  | Call cb => runCallback hasObserver convertMediaState cb w
  | ObserverWrites r f => if wasDelivered r w then modify r f w else w
  end.

Definition runSteps (hasObserver : bool) (convertMediaState : nat)
    (steps : list Step) (w : World) : World :=
  fold_left (fun w s => runStep hasObserver convertMediaState s w) steps w.

Definition callsOf (steps : list Step) : list Callback :=
  omap (fun s => match s with Call cb => Some cb | ObserverWrites _ _ => None end) steps.

(** An observer that overwrites whatever it is handed. *)
Definition hundred : ConvertMediaState :=
  {| decodedVideoFrames := 100; decodedAudioFrames := 100;
     encodedVideoFrames := 100; encodedAudioFrames := 100 |}.

Definition isAddTrack (e : Effect) : bool :=
  match e with AddTrack _ => true | _ => false end.

Definition isWaitForFinish (e : Effect) : bool :=
  match e with AddWaitForFinishPromise => true | _ => false end.

End ConvertMedia.

(** ** The ISO-BMFF muxer: [serializeTrack] *)
Module IsoMuxer.
Import Js.

Definition ISO_BASE_TIMESCALE : Z := 1000.

(** Modelled from the spec: the track descriptions handed to the muxer
    ([make-track-info]) are not part of the sources at hand.  Beside the
    fields that [serializeTrack] reads they carry the track's own
    [timescale], as every track descriptor does. *)
Record MakeTrackVideo := {
  v_codec : string;
  v_codecPrivate : option (list Z);
  v_trackNumber : Z;
  v_width : Z;
  v_height : Z;
  v_timescale : Z
}.

Record MakeTrackAudio := {
  a_codec : string;
  a_codecPrivate : option (list Z);
  a_trackNumber : Z;
  a_numberOfChannels : Z;
  a_sampleRate : Z;
  a_timescale : Z
}.

Inductive MakeTrack :=
| Video (t : MakeTrackVideo)
| Audio (t : MakeTrackAudio).

Definition codec (t : MakeTrack) : string :=
  match t with Video v => v_codec v | Audio a => a_codec a end.
Definition codecPrivate (t : MakeTrack) : option (list Z) :=
  match t with Video v => v_codecPrivate v | Audio a => a_codecPrivate a end.
Definition trackNumber (t : MakeTrack) : Z :=
  match t with Video v => v_trackNumber v | Audio a => a_trackNumber a end.
Definition timescaleOf (t : MakeTrack) : Z :=
  match t with Video v => v_timescale v | Audio a => a_timescale a end.

Record IsoBaseMediaTrackData := {
  track : MakeTrack;
  durationInUnits : Z;
  samplePositions : list IsoBmff.SamplePosition
}.

(** The atoms, as the arguments given to their builders: the byte layout
    is the business of the [create*] functions. *)
Inductive Tkhd :=
| TkhdForAudio (creationTime modificationTime : option Z) (flags duration trackId volume : Z)
| TkhdForVideo (creationTime modificationTime : option Z)
    (duration flags height width : Z) (matrix : list Z) (trackId volume : Z)
| TkhdWrong.

Record Elst := { segmentDuration : Z; mediaTime : Z }.

Record Mdhd := {
  creationTime : option Z;
  modificationTime : option Z;
  duration : Z;
  timescale : Z
}.

Inductive Hdlr := HdlrVideo | HdlrAudio.

Inductive CodecSpecificData :=
| Mp4aData (avgBitrate maxBitrate : Z) (btrt : Z * Z) (channelCount sampleRate : Z)
| Avc1Data (avccBox : list Z) (btrt : Z * Z) (compressorName : string)
    (depth horizontalResolution verticalResolution height width : Z) (pasp : Z * Z).

Record Stbl := {
  stblSamplePositions : list IsoBmff.SamplePosition;
  codecSpecificData : CodecSpecificData
}.

Inductive Vmhd := VmhdAtom.

Record Minf := { stblAtom : Stbl; vmhdAtom : Vmhd }.

Record Mdia := { mdhd : Mdhd; hdlr : Hdlr; minf : Minf }.

Record Trak := { tkhd : Tkhd; edts : Elst; mdia : Mdia }.

Section Serialize.
(** Constants of [primitives] and [trak/create-tkhd]. *)
Variable IDENTITY_MATRIX : list Z.
Variable TRACK_ENABLED TRACK_IN_MOVIE : Z.

Definition serializeTrack (d : IsoBaseMediaTrackData) : Result Trak :=
  let track := track d in
  if negb (String.eqb (codec track) "h264") && negb (String.eqb (codec track) "aac") then
    Throw "Currently only H.264 and AAC is supported"
  else
    match codecPrivate track with
    | None => Throw "Missing codecPrivate"
    | Some priv =>
      Ok {|
        tkhd :=
          if String.eqb (codec track) "aac" then
            TkhdForAudio None None (Z.lor TRACK_ENABLED TRACK_IN_MOVIE)
              (durationInUnits d) (trackNumber track) 1
          else
            match track with
            | Video v =>
              TkhdForVideo None None (durationInUnits d)
                (Z.lor TRACK_ENABLED TRACK_IN_MOVIE)
                (v_height v) (v_width v) IDENTITY_MATRIX (v_trackNumber v) 1
            | Audio _ => TkhdWrong
            end;
        edts := {| segmentDuration := durationInUnits d; mediaTime := 0 |};
        mdia := {|
          mdhd := {| creationTime := None;
                     modificationTime := None;
                     duration := durationInUnits d;
                     timescale := ISO_BASE_TIMESCALE |};
          hdlr := match track with Video _ => HdlrVideo | Audio _ => HdlrAudio end;
          minf := {|
            stblAtom := {|
              stblSamplePositions := samplePositions d;
              codecSpecificData :=
                match track with
                | Audio a =>
                  Mp4aData 317370 319999 (317370, 319999)
                    (a_numberOfChannels a) (a_sampleRate a)
                | Video v =>
                  Avc1Data priv (437875, 437875) EmptyString 24 72 72
                    (v_height v) (v_width v) (1, 1)
                end
            |};
            vmhdAtom := VmhdAtom
          |}
        |}
      |}
    end.

End Serialize.

(** *** Sample inputs *)

Definition identityMatrix : list Z := [0x10000; 0; 0; 0; 0x10000; 0; 0; 0; 0x40000000].

(** An H.264 video track whose own timescale is 90000. *)
Definition h264Track : IsoBaseMediaTrackData :=
  {| track := Video {| v_codec := "h264"; v_codecPrivate := Some [1; 100; 0; 31];
                       v_trackNumber := 1; v_width := 1920; v_height := 1080;
                       v_timescale := 90000 |};
     durationInUnits := 2000;
     samplePositions := [] |}.

(** An AAC audio track whose own timescale is 48000. *)
Definition aacTrack : IsoBaseMediaTrackData :=
  {| track := Audio {| a_codec := "aac"; a_codecPrivate := Some [17; 144];
                       a_trackNumber := 2; a_numberOfChannels := 2;
                       a_sampleRate := 48000; a_timescale := 48000 |};
     durationInUnits := 2000;
     samplePositions := [] |}.

Definition vp8Track : IsoBaseMediaTrackData :=
  {| track := Video {| v_codec := "vp8"; v_codecPrivate := Some [];
                       v_trackNumber := 1; v_width := 640; v_height := 360;
                       v_timescale := 1000 |};
     durationInUnits := 2000;
     samplePositions := [] |}.

(** *** Shape of a serialized track *)

Definition isVideoTrack (t : MakeTrack) : bool :=
  match t with Video _ => true | Audio _ => false end.

Definition tkhdIsWrong (t : Tkhd) : bool :=
  match t with TkhdWrong => true | _ => false end.

Definition tkhdIsAudio (t : Tkhd) : bool :=
  match t with TkhdForAudio _ _ _ _ _ _ => true | _ => false end.

Definition tkhdDuration (t : Tkhd) : option Z :=
  match t with
  | TkhdForAudio _ _ _ d _ _ => Some d
  | TkhdForVideo _ _ d _ _ _ _ _ _ => Some d
  | TkhdWrong => None
  end.

Definition tkhdTrackId (t : Tkhd) : option Z :=
  match t with
  | TkhdForAudio _ _ _ _ i _ => Some i
  | TkhdForVideo _ _ _ _ _ _ _ i _ => Some i
  | TkhdWrong => None
  end.

Definition entryIsAudio (c : CodecSpecificData) : bool :=
  match c with Mp4aData _ _ _ _ _ => true | Avc1Data _ _ _ _ _ _ _ _ _ => false end.

(** An audio track that claims the codec ['h264']. *)
Definition h264AudioTrack : IsoBaseMediaTrackData :=
  {| track := Audio {| a_codec := "h264"; a_codecPrivate := Some [1];
                       a_trackNumber := 3; a_numberOfChannels := 2;
                       a_sampleRate := 44100; a_timescale := 44100 |};
     durationInUnits := 500;
     samplePositions := [] |}.

(** An H.264 track without codec-private data. *)
Definition h264TrackNoPrivate : IsoBaseMediaTrackData :=
  {| track := Video {| v_codec := "h264"; v_codecPrivate := None;
                       v_trackNumber := 1; v_width := 1920; v_height := 1080;
                       v_timescale := 90000 |};
     durationInUnits := 2000;
     samplePositions := [] |}.

End IsoMuxer.

(** ** Containers and codecs ([codec-id], [can-copy-video-track]) *)
Module CodecId.
Import Js.

Definition availableContainers : list string := ["webm"; "mp4"].

Definition getAvailableContainers : list string := availableContainers.

Definition getAvailableVideoCodecs (container : string) : Result (list string) :=
  if String.eqb container "mp4" then Ok ["h264"]
  else if String.eqb container "webm" then Ok ["vp8"; "vp9"]
  else Throw ("Unsupported container: " ++ container)%string.

Definition getAvailableAudioCodecs (container : string) : Result (list string) :=
  if String.eqb container "mp4" then Ok ["aac"]
  else if String.eqb container "webm" then Ok ["opus"]
  else Throw ("Unsupported container: " ++ container)%string.

Definition canCopyVideoTrack (inputCodec container : string) : Result bool :=
  if String.eqb container "webm" then
    Ok (String.eqb inputCodec "vp8" || String.eqb inputCodec "vp9")
  else if String.eqb container "mp4" then
    Ok (String.eqb inputCodec "h264" || String.eqb inputCodec "h265")
  else Throw ("Unhandled codec: " ++ container)%string.

End CodecId.

(** ** Tracks of an ISO-BMFF file ([make-track]) *)
Module BaseMediaTrack.
Import Js.

(** [{timescale, duration}] as read from the media header. *)
Record TimescaleAndDuration := {
  timescale : Z;
  mediaDuration : Z
}.

(** What [applyTkhdBox] hands back. *)
Record Applied := {
  displayAspectHeight : Z;
  displayAspectWidth : Z;
  height : Z;
  rotation : Z;
  width : Z
}.

Section MakeBaseMediaTrack.
(** The boxes and the values that only pass through. *)
Variables TrakBox TkhdBox VideoSampleEntry Descriptors Description CodecPrivate
  SampleAspectRatio DisplayAspectRatio AspectRatioApplied Color
  AudioCodec VideoCodec : Type.

Record AudioTrack := {
  a_trackId : Z;
  a_timescale : Z;
  a_codec : string;
  a_numberOfChannels : Z;
  a_sampleRate : Z;
  a_description : option Description;
  a_trakBox : TrakBox;
  a_codecPrivate : option CodecPrivate;
  a_codecWithoutConfig : AudioCodec
}.

Record OtherTrack := {
  o_trackId : Z;
  o_timescale : Z;
  o_trakBox : TrakBox
}.

Record VideoTrack := {
  v_trackId : Z;
  v_description : option Descriptors;
  v_timescale : Z;
  v_codec : string;
  v_sampleAspectRatio : SampleAspectRatio;
  v_width : Z;
  v_height : Z;
  v_codedWidth : Z;
  v_codedHeight : Z;
  v_displayAspectWidth : Z;
  v_displayAspectHeight : Z;
  v_rotation : Z;
  v_trakBox : TrakBox;
  v_codecPrivate : option CodecPrivate;
  v_color : Color;
  v_codecWithoutConfig : VideoCodec
}.

Inductive Track :=
| Audio (t : AudioTrack)
| Other (t : OtherTrack)
| Video (t : VideoTrack).

Definition trackId (t : Track) : Z :=
  match t with
  | Audio a => a_trackId a
  | Other o => o_trackId o
  | Video v => v_trackId v
  end.

Definition trackTimescale (t : Track) : Z :=
  match t with
  | Audio a => a_timescale a
  | Other o => o_timescale o
  | Video v => v_timescale v
  end.

Definition trackTrakBox (t : Track) : TrakBox :=
  match t with
  | Audio a => a_trakBox a
  | Other o => o_trakBox o
  | Video v => v_trakBox v
  end.

(** The helpers of the parser, each of which may throw. *)
Variable tkhdTrackId : TkhdBox -> Z.
Variable sampleWidth sampleHeight : VideoSampleEntry -> Z.
Variable getTkhdBox : TrakBox -> Result (option TkhdBox).
Variable getVideoDescriptors : TrakBox -> Result (option Descriptors).
Variable getTimescaleAndDuration : TrakBox -> Result (option TimescaleAndDuration).
Variable trakBoxContainsAudio trakBoxContainsVideo : TrakBox -> Result bool.
Variable getNumberOfChannelsFromTrak : TrakBox -> Result (option Z).
Variable getSampleRate : TrakBox -> Result (option Z).
Variable getAudioCodecStringFromTrak : TrakBox -> Result (string * option Description).
Variable getCodecPrivateFromTrak : TrakBox -> Result (option CodecPrivate).
Variable getAudioCodecFromTrack : TrakBox -> Result AudioCodec.
Variable getStsdVideoConfig : TrakBox -> Result (option VideoSampleEntry).
Variable getSampleAspectRatio : TrakBox -> Result SampleAspectRatio.
Variable getDisplayAspectRatio :
  SampleAspectRatio -> VideoSampleEntry -> Result DisplayAspectRatio.
Variable applyAspectRatios :
  VideoSampleEntry -> SampleAspectRatio -> DisplayAspectRatio -> Result AspectRatioApplied.
Variable applyTkhdBox : AspectRatioApplied -> TkhdBox -> Result Applied.
Variable getVideoCodecString : TrakBox -> Result (option string).
Variable getVideoPrivateData : TrakBox -> Result (option CodecPrivate).
Variable getIsoBmColrConfig : TrakBox -> Result (option Color).
Variable getVideoCodecFromIsoTrak : TrakBox -> Result VideoCodec.
(** The colour description made of four [null]s. *)
Variable nullColor : Color.

(** [!codec] for a [string | null]: [null] and the empty string are falsy. *)
Definition falsyString (s : option string) : bool :=
  match s with
  | None => true
  | Some c => String.eqb c EmptyString
  end.

(** The audio branch. *)
Definition makeAudioTrack (trakBox : TrakBox) (tkhdBox : TkhdBox)
    (timescaleAndDuration : TimescaleAndDuration) : Result (option Track) :=
  let* numberOfChannels := getNumberOfChannelsFromTrak trakBox in
  match numberOfChannels with
  | None => Throw "Could not find number of channels"
  | Some numberOfChannels =>
    let* sampleRate := getSampleRate trakBox in
    match sampleRate with
    | None => Throw "Could not find sample rate"
    | Some sampleRate =>
      let* codecAndDescription := getAudioCodecStringFromTrak trakBox in
      let* codecPrivate := getCodecPrivateFromTrak trakBox in
      let* codecWithoutConfig := getAudioCodecFromTrack trakBox in
      Ok (Some (Audio {|
        a_trackId := tkhdTrackId tkhdBox;
        a_timescale := timescale timescaleAndDuration;
        a_codec := fst codecAndDescription;
        a_numberOfChannels := numberOfChannels;
        a_sampleRate := sampleRate;
        a_description := snd codecAndDescription;
        a_trakBox := trakBox;
        a_codecPrivate := codecPrivate;
        a_codecWithoutConfig := codecWithoutConfig |}))
    end
  end.

(** The video branch. *)
Definition makeVideoTrack (trakBox : TrakBox) (tkhdBox : TkhdBox)
    (videoDescriptors : option Descriptors)
    (timescaleAndDuration : TimescaleAndDuration) : Result (option Track) :=
  let* videoSample := getStsdVideoConfig trakBox in
  match videoSample with
  | None => Throw "No video sample"
  | Some videoSample =>
    let* sampleAspectRatio := getSampleAspectRatio trakBox in
    let* displayAspectRatio := getDisplayAspectRatio sampleAspectRatio videoSample in
    let* aspectRatioApplied :=
      applyAspectRatios videoSample sampleAspectRatio displayAspectRatio in
    let* applied := applyTkhdBox aspectRatioApplied tkhdBox in
    let* codec := getVideoCodecString trakBox in
    if falsyString codec then Throw "Could not find video codec"
    else
      let* privateData := getVideoPrivateData trakBox in
      let* sampleAspectRatio' := getSampleAspectRatio trakBox in
      let* color := getIsoBmColrConfig trakBox in
      let* codecWithoutConfig := getVideoCodecFromIsoTrak trakBox in
      Ok (Some (Video {|
        v_trackId := tkhdTrackId tkhdBox;
        v_description := videoDescriptors;
        v_timescale := timescale timescaleAndDuration;
        v_codec := nullish_or codec EmptyString;
        v_sampleAspectRatio := sampleAspectRatio';
        v_width := width applied;
        v_height := height applied;
        v_codedWidth := sampleWidth videoSample;
        v_codedHeight := sampleHeight videoSample;
        v_displayAspectWidth := displayAspectWidth applied;
        v_displayAspectHeight := displayAspectHeight applied;
        v_rotation := rotation applied;
        v_trakBox := trakBox;
        v_codecPrivate := privateData;
        v_color := nullish_or color nullColor;
        v_codecWithoutConfig := codecWithoutConfig |}))
  end.

(** [makeBaseMediaTrack]; its return type admits [null], here [Ok None]. *)
Definition makeBaseMediaTrack (trakBox : TrakBox) : Result (option Track) :=
  let* tkhdBox := getTkhdBox trakBox in
  let* videoDescriptors := getVideoDescriptors trakBox in
  let* timescaleAndDuration := getTimescaleAndDuration trakBox in
  match tkhdBox with
  | None => Throw "Expected tkhd box in trak box"
  | Some tkhdBox =>
    match timescaleAndDuration with
    | None => Throw "Expected timescale and duration in trak box"
    | Some timescaleAndDuration =>
      let* hasAudio := trakBoxContainsAudio trakBox in
      if hasAudio then makeAudioTrack trakBox tkhdBox timescaleAndDuration
      else
        let* hasVideo := trakBoxContainsVideo trakBox in
        if negb hasVideo then
          Ok (Some (Other {| o_trackId := tkhdTrackId tkhdBox;
                             o_timescale := timescale timescaleAndDuration;
                             o_trakBox := trakBox |}))
        else makeVideoTrack trakBox tkhdBox videoDescriptors timescaleAndDuration
    end
  end.

Definition isAudio (t : Track) : bool :=
  match t with Audio _ => true | _ => false end.
Definition isOther (t : Track) : bool :=
  match t with Other _ => true | _ => false end.
Definition isVideo (t : Track) : bool :=
  match t with Video _ => true | _ => false end.

End MakeBaseMediaTrack.

(** *** A small instance, for running [makeBaseMediaTrack] *)

(** A [trak] reduced to what the helpers below read from it. *)
Record ToyTrak := {
  toyTkhd : option Z;
  toyTimescale : option Z;
  toyAudio : bool;
  toyVideo : bool
}.

Definition toyMakeBaseMediaTrack (trakBox : ToyTrak) :=
  makeBaseMediaTrack ToyTrak Z (Z * Z) unit unit unit unit unit unit unit unit unit
    (fun tkhd => tkhd) fst snd
    (fun t => Ok (toyTkhd t))
    (fun _ => Ok None)
    (fun t => Ok ((fun ts => {| timescale := ts; mediaDuration := 0 |}) <$> toyTimescale t))
    (fun t => Ok (toyAudio t)) (fun t => Ok (toyVideo t))
    (fun _ => Ok (Some 2)) (fun _ => Ok (Some 48000))
    (fun _ => Ok ("mp4a.40.2", None)) (fun _ => Ok None) (fun _ => Ok tt)
    (fun _ => Ok (Some (1920, 1080)))
    (fun _ => Ok tt) (fun _ _ => Ok tt) (fun _ _ _ => Ok tt)
    (fun _ _ => Ok {| displayAspectHeight := 1080; displayAspectWidth := 1920;
                      height := 1080; rotation := 0; width := 1920 |})
    (fun _ => Ok (Some "avc1.640028")) (fun _ => Ok None) (fun _ => Ok None)
    (fun _ => Ok tt) tt
    trakBox.

(** A [trak] holding both an audio and a video sample entry. *)
Definition audioAndVideoTrak : ToyTrak :=
  {| toyTkhd := Some 5; toyTimescale := Some 44100; toyAudio := true; toyVideo := true |}.

Definition videoOnlyTrak : ToyTrak :=
  {| toyTkhd := Some 6; toyTimescale := Some 90000; toyAudio := false; toyVideo := true |}.

End BaseMediaTrack.

(** ** The conversion page ([ConvertUi]): the preview drawn while converting *)
Module ConvertUi.

Section Preview.
Variable VideoFrame : Type.

(** The frame counter of [onClick] and the frames given to the canvas so far. *)
Record Preview := {
  videoFrames : Z;
  drawn : list VideoFrame
}.

(** The [onVideoFrame] hook handed to [convertMedia];
    [convertProgressRef.current] may be missing. *)
Definition onVideoFrame (hasCanvas : bool) (frame : VideoFrame) (p : Preview) : Preview :=
  let p :=
    if Z.rem (videoFrames p) 15 =? 0 then
      if hasCanvas then {| videoFrames := videoFrames p; drawn := drawn p ++ [frame] |}
      else p
    else p in
  {| videoFrames := videoFrames p + 1; drawn := drawn p |}.

(** [let videoFrames = 0], then one call per decoded frame.  Each frame
    comes with what [convertProgressRef.current] holds when the hook reads
    it: the canvas ([true]) or [null] ([false]).  The ref is set when
    [ConvertProgress] mounts, which the first state update brings about, so
    it can differ from one frame to the next. *)
Definition preview (frames : list (bool * VideoFrame)) : Preview :=
  fold_left (fun p cf => onVideoFrame (fst cf) (snd cf) p) frames
    {| videoFrames := 0; drawn := [] |}.

End Preview.

End ConvertUi.

(** * Properties *)

(** ** 32-bit operators *)
Section JsFacts.
Import Js.

Lemma ToInt32_mod (x : Z) : ToInt32 x mod 2 ^ 32 = x mod 2 ^ 32.
Proof.
  unfold ToInt32.
  rewrite Zminus_mod, Zmod_mod, <- Zminus_mod.
  replace (x + 2 ^ 31 - 2 ^ 31) with x by lia.
  reflexivity.
Qed.

Lemma ToInt32_testbit (x n : Z) :
  0 <= n < 32 -> Z.testbit (ToInt32 x) n = Z.testbit x n.
Proof.
  intros Hn.
  rewrite <- (Z.mod_pow2_bits_low (ToInt32 x) 32 n) by lia.
  rewrite ToInt32_mod.
  apply Z.mod_pow2_bits_low; lia.
Qed.

Lemma ToInt32_small (x : Z) : - 2 ^ 31 <= x < 2 ^ 31 -> ToInt32 x = x.
Proof.
  intros H. unfold ToInt32.
  rewrite Z.mod_small by lia. lia.
Qed.

Lemma land_one (y : Z) : Z.land y 1 = if Z.testbit y 0 then 1 else 0.
Proof.
  change 1 with (Z.ones 1) at 1.
  rewrite Z.land_ones by lia.
  change (2 ^ 1) with 2.
  rewrite <- Z.bit0_mod.
  destruct (Z.testbit y 0); reflexivity.
Qed.

(** [!((flags >> 16) & 1)] reads bit 16 of the flags word. *)
Lemma keyframeOfFlags_bit16 (flags : Z) :
  IsoBmff.keyframeOfFlags flags = negb (Z.testbit flags 16).
Proof.
  unfold IsoBmff.keyframeOfFlags, not_num, band, sar.
  change (16 mod 32) with 16.
  rewrite (ToInt32_small 1) by lia.
  rewrite land_one.
  rewrite ToInt32_testbit by lia.
  rewrite Z.shiftr_spec by lia.
  rewrite ToInt32_testbit by lia.
  change (0 + 16) with 16.
  destruct (Z.testbit flags 16); reflexivity.
Qed.

End JsFacts.

(** ** The fragmented-MP4 resolver *)
Section ResolverFacts.
Import Js IsoBmff.

Variable tfhdOf : IsoBaseMediaBox -> option TfhdBox.
Variable tfdtOf : IsoBaseMediaBox -> option TfdtBox.
Variable trunsOf : IsoBaseMediaBox -> list TrunBox.

Lemma sumZ_app (l1 l2 : list Z) : sumZ (l1 ++ l2) = sumZ l1 + sumZ l2.
Proof. induction l1 as [|x l1 IH]; simpl; [reflexivity | rewrite IH; lia]. Qed.

Lemma sampleStep_inv tfhdBox tfdtBox moofOffset trunBox i sample st st' :
  sampleStep tfhdBox tfdtBox moofOffset trunBox i sample st = Ok st' ->
  exists s,
    acc_samples st' = acc_samples st ++ [s]
    /\ acc_offset st' = acc_offset st + size s
    /\ acc_time st' = acc_time st + duration s
    /\ offset s = acc_offset st + nullish_or (dataOffset trunBox) 0 + moofOffset
    /\ dts s = acc_time st + nullish_or (baseMediaDecodeTime <$> tfdtBox) 0
    /\ cts s = dts s.
Proof.
  unfold sampleStep.
  destruct (nullish (sampleDuration sample) _) as [d|]; [|discriminate].
  destruct (nullish (sampleSize sample) _) as [z|]; [|discriminate].
  destruct (resolveFlags _ trunBox i sample) as [f|]; [|discriminate].
  intros H. injection H as <-. eexists. simpl. repeat split; reflexivity.
Qed.

Lemma Consumed_step tfhdBox tfdtBox moofOffset trunBox i sample rows st st' :
  Consumed (nullish_or (baseMediaDecodeTime <$> tfdtBox) 0) moofOffset rows st ->
  sampleStep tfhdBox tfdtBox moofOffset trunBox i sample st = Ok st' ->
  Consumed (nullish_or (baseMediaDecodeTime <$> tfdtBox) 0) moofOffset
    (rows ++ [(trunBox, sample)]) st'.
Proof.
  intros (Hlen & Hoff & Htime & Hall) Hstep.
  apply sampleStep_inv in Hstep as (s & Hs & Ho & Ht & Hso & Hsd & Hsc).
  unfold Consumed. rewrite Hs.
  repeat split.
  - rewrite !length_app, Hlen. reflexivity.
  - rewrite map_app, sumZ_app, Ho, Hoff. simpl. lia.
  - rewrite map_app, sumZ_app, Ht, Htime. simpl. lia.
  - intros k s0 Hk.
    destruct (decide (k < length (acc_samples st))%nat) as [Hlt|Hge].
    + rewrite lookup_app_l in Hk by exact Hlt.
      destruct (Hall k s0 Hk) as (t & row & Hrow & Hd & Hof & Hc).
      exists t, row. rewrite lookup_app_l by (rewrite <- Hlen; exact Hlt).
      rewrite take_app_le by lia.
      repeat split; assumption.
    + assert (Hk' := Hk).
      apply lookup_lt_Some in Hk'. rewrite length_app in Hk'. simpl in Hk'.
      assert (k = length (acc_samples st)) as -> by lia.
      rewrite lookup_app_r in Hk by lia.
      rewrite Nat.sub_diag in Hk. simpl in Hk. injection Hk as <-.
      exists trunBox, sample.
      rewrite take_app_le by lia. rewrite firstn_all.
      rewrite <- Hoff, <- Htime.
      rewrite lookup_app_r by lia.
      rewrite Hlen, Nat.sub_diag. simpl.
      repeat split; [lia | lia | assumption].
Qed.

Lemma Consumed_sampleLoop tfhdBox tfdtBox moofOffset trunBox :
  forall rs i rows st st',
    Consumed (nullish_or (baseMediaDecodeTime <$> tfdtBox) 0) moofOffset rows st ->
    sampleLoop tfhdBox tfdtBox moofOffset trunBox i rs st = Ok st' ->
    Consumed (nullish_or (baseMediaDecodeTime <$> tfdtBox) 0) moofOffset
      (rows ++ map (pair trunBox) rs) st'.
Proof.
  induction rs as [|sample rest IH]; intros i rows st st' Hc Hrun; simpl in *.
  - injection Hrun as <-. rewrite app_nil_r. exact Hc.
  - destruct (sampleStep _ _ _ _ _ sample st) as [st1|] eqn:Hstep; simpl in Hrun;
      [|discriminate].
    eapply Consumed_step in Hstep; [|exact Hc].
    specialize (IH _ _ _ _ Hstep Hrun).
    rewrite <- app_assoc in IH. exact IH.
Qed.

Lemma Consumed_trunLoop tfhdBox tfdtBox moofOffset :
  forall truns rows st st',
    Consumed (nullish_or (baseMediaDecodeTime <$> tfdtBox) 0) moofOffset rows st ->
    trunLoop tfhdBox tfdtBox moofOffset truns st = Ok st' ->
    Consumed (nullish_or (baseMediaDecodeTime <$> tfdtBox) 0) moofOffset
      (rows ++ flatRows truns) st'.
Proof.
  induction truns as [|t rest IH]; intros rows st st' Hc Hrun; simpl in *.
  - injection Hrun as <-. unfold flatRows. simpl. rewrite app_nil_r. exact Hc.
  - destruct (sampleLoop _ _ _ t (-1) (samples t) st) as [st1|] eqn:Hloop;
      simpl in Hrun; [|discriminate].
    eapply Consumed_sampleLoop in Hloop; [|exact Hc].
    specialize (IH _ _ _ Hloop Hrun).
    unfold flatRows in *. simpl. rewrite app_assoc. exact IH.
Qed.

Lemma Consumed_start base moofOffset :
  Consumed base moofOffset [] {| acc_offset := 0; acc_time := 0; acc_samples := [] |}.
Proof.
  unfold Consumed. simpl. repeat split; try reflexivity.
  intros k s H. rewrite lookup_nil in H. discriminate.
Qed.

Lemma getSamplesFromTraf_Consumed traf moofOffset out :
  getSamplesFromTraf tfhdOf tfdtOf trunsOf traf moofOffset = Ok out ->
  exists st,
    acc_samples st = out
    /\ Consumed (nullish_or (baseMediaDecodeTime <$> tfdtOf traf) 0) moofOffset
         (flatRows (trunsOf traf)) st.
Proof.
  unfold getSamplesFromTraf.
  destruct (negb (isTraf traf)); [discriminate|].
  destruct (trunLoop _ _ _ _ _) as [st|] eqn:Hrun; simpl; [|discriminate].
  intros H. injection H as <-.
  exists st. split; [reflexivity|].
  eapply Consumed_trunLoop in Hrun; [|apply Consumed_start].
  exact Hrun.
Qed.

End ResolverFacts.

Section ResolverClaims.
Import Js IsoBmff.

(** C1. Within a [traf], the [k]-th emitted sample has
    [dts = (tfdt.baseMediaDecodeTime ?? 0)] plus the durations of the
    samples emitted before it, and
    [offset = moof offset + (dataOffset of its trun ?? 0)] plus the sizes of
    the samples emitted before it; the outputs are one per row of the
    [trun] boxes, in order.  In particular the fragment with decode time
    90000 and one run of three samples of duration 3000 and sizes 4096,
    1024, 1024 resolves to DTS 90000, 93000, 96000, the same sizes,
    keyframe flags true, false, false, and offsets
    [moofOffset + trunDataOffset] plus 0, 4096 and 5120. *)
Theorem C1_traf_sample_positions :
  (forall tfhdOf tfdtOf trunsOf traf moofOffset out,
      getSamplesFromTraf tfhdOf tfdtOf trunsOf traf moofOffset = Ok out ->
      length out = length (flatRows (trunsOf traf))
      /\ forall (k : nat) (s : SamplePosition),
          out !! k = Some s ->
          exists t row,
            flatRows (trunsOf traf) !! k = Some (t, row)
            /\ dts s = nullish_or (baseMediaDecodeTime <$> tfdtOf traf) 0
                       + sumZ (map duration (take k out))
            /\ offset s = moofOffset + nullish_or (dataOffset t) 0
                          + sumZ (map size (take k out)))
  /\ (forall moofOffset trunDataOffset,
        exists out,
          getSamplesFromMoof getTfhdBox getTfdtBox getTrunBoxes
            (scenarioMoof moofOffset trunDataOffset) 1 = Ok out
          /\ map dts out = [90000; 93000; 96000]
          /\ map size out = [4096; 1024; 1024]
          /\ map isKeyframe out = [true; false; false]
          /\ map offset out = [moofOffset + trunDataOffset;
                               moofOffset + trunDataOffset + 4096;
                               moofOffset + trunDataOffset + 5120]).
Proof.
  split.
  - intros tfhdOf tfdtOf trunsOf traf moofOffset out H.
    apply getSamplesFromTraf_Consumed in H as (st & <- & Hlen & _ & _ & Hall).
    split; [exact Hlen|].
    intros k s Hk.
    destruct (Hall k s Hk) as (t & row & Hrow & Hd & Ho & _).
    exists t, row. repeat split; assumption.
  - intros moofOffset d.
    eexists. split; [reflexivity|].
    cbn. repeat split; repeat (f_equal; try lia).
Qed.

Lemma C1_traf_sample_positions_witness :
  getSamplesFromTraf getTfhdBox getTfdtBox getTrunBoxes (scenarioTraf 120) 5000
    = Ok [ {| offset := 5120; size := 4096; isKeyframe := true;
              dts := 90000; cts := 90000; duration := 3000 |};
           {| offset := 9216; size := 1024; isKeyframe := false;
              dts := 93000; cts := 93000; duration := 3000 |};
           {| offset := 10240; size := 1024; isKeyframe := false;
              dts := 96000; cts := 96000; duration := 3000 |} ]
  /\ exists t row,
       flatRows (getTrunBoxes (scenarioTraf 120)) !! 2%nat = Some (t, row)
       /\ 96000 = 90000 + (3000 + (3000 + 0))
       /\ 10240 = 5000 + nullish_or (dataOffset t) 0 + (4096 + (1024 + 0)).
Proof.
  split; [reflexivity|].
  exact (proj2 (proj1 C1_traf_sample_positions
                  getTfhdBox getTfdtBox getTrunBoxes (scenarioTraf 120) 5000 _ eq_refl)
               2%nat _ eq_refl).
Defined.

End ResolverClaims.

Section ResolverFlagsAndTimes.
Import Js IsoBmff.

(** Apart from explicit flags equal to 0, the source resolves the flags by
    the chain of the specification. *)
Lemma resolveFlags_spec defaultFlags trunBox i sample :
  sampleFlags sample <> Some 0 ->
  resolveFlags defaultFlags trunBox i sample
    = specResolveFlags defaultFlags trunBox i sample.
Proof.
  intros Hnz. unfold resolveFlags, specResolveFlags, truthy_num.
  destruct (sampleFlags sample) as [f|].
  - destruct (Z.eqb_spec f 0) as [->|_]; [congruence | reflexivity].
  - destruct (i =? 0), (firstSampleFlags trunBox); reflexivity.
Qed.

(** Explicit flags equal to 0 are treated like absent ones. *)
Lemma resolveFlags_zero defaultFlags trunBox i sample :
  sampleFlags sample = Some 0 ->
  resolveFlags defaultFlags trunBox i sample
    = (if i =? 0 then nullish (firstSampleFlags trunBox) defaultFlags else defaultFlags).
Proof.
  intros Hz. unfold resolveFlags, truthy_num, nullish. rewrite Hz. simpl.
  destruct (i =? 0), (firstSampleFlags trunBox); reflexivity.
Qed.

(** C2. The fallback chain of the specification takes the explicit
    per-sample flags whenever they are present.  On a run whose sample
    carries explicit flags 0 (bit 16 clear: a keyframe) the source skips
    them: under a [tfhd] with non-sync default flags the sample comes out
    as a non-keyframe, and under a [tfhd] without default flags the
    resolver throws although explicit flags are there. *)
Theorem C2_explicit_zero_flags_are_skipped :
  samples zeroFlagsRun = [zeroFlagsSample]
  /\ specResolveFlags (Some 0x1010000) zeroFlagsRun 0 zeroFlagsSample = Some 0
  /\ specResolveFlags None zeroFlagsRun 0 zeroFlagsSample = Some 0
  /\ resolveFlags (Some 0x1010000) zeroFlagsRun 0 zeroFlagsSample = Some 0x1010000
  /\ resolveFlags None zeroFlagsRun 0 zeroFlagsSample = None
  /\ keyframeOfFlags 0 = true
  /\ keyframeOfFlags 0x1010000 = false
  /\ getSamplesFromTraf getTfhdBox getTfdtBox getTrunBoxes zeroFlagsTraf 0
     = Ok [ {| offset := 8; size := 100; isKeyframe := false;
               dts := 0; cts := 0; duration := 3000 |} ]
  /\ getSamplesFromTraf getTfhdBox getTfdtBox getTrunBoxes zeroFlagsTrafNoDefault 0
     = Throw "Expected sample flags".
Proof.
  repeat split.
Qed.

Lemma mapTrafs_Forall (P : SamplePosition -> Prop) tfhdOf tfdtOf trunsOf moofOffset tid :
  (forall traf out,
      getSamplesFromTraf tfhdOf tfdtOf trunsOf traf moofOffset = Ok out -> Forall P out) ->
  forall trafs out,
    mapTrafs tfhdOf tfdtOf trunsOf moofOffset tid trafs = Ok out -> Forall P out.
Proof.
  intros Htraf. induction trafs as [|traf rest IH]; intros out H; simpl in H.
  - injection H as <-. constructor.
  - destruct (match tfhdOf traf with Some h => trackId h =? tid | None => false end).
    + destruct (getSamplesFromTraf _ _ _ traf moofOffset) as [here|] eqn:Hh;
        simpl in H; [|discriminate].
      destruct (mapTrafs _ _ _ _ _ rest) as [others|]; simpl in H; [|discriminate].
      injection H as <-. apply Forall_app. split; [eapply Htraf; eassumption | apply IH; reflexivity].
    + simpl in H.
      destruct (mapTrafs _ _ _ _ _ rest) as [others|]; simpl in H; [|discriminate].
      injection H as <-. simpl. apply IH; reflexivity.
Qed.

Lemma getSamplesFromTraf_cts tfhdOf tfdtOf trunsOf traf moofOffset out :
  getSamplesFromTraf tfhdOf tfdtOf trunsOf traf moofOffset = Ok out ->
  Forall (fun s => cts s = dts s) out.
Proof.
  intros H.
  apply getSamplesFromTraf_Consumed in H as (st & <- & _ & _ & _ & Hall).
  apply Forall_lookup. intros k s Hk.
  destruct (Hall k s Hk) as (_ & _ & _ & _ & _ & Hc). exact Hc.
Qed.

(** C10. Every sample position produced by [getSamplesFromTraf], and hence
    by [getSamplesFromMoof], has [cts] equal to [dts]: the composition-time
    offsets of the run rows are never applied. *)
Theorem C10_fragment_cts_equals_dts :
  forall tfhdOf tfdtOf trunsOf,
    (forall traf moofOffset out,
        getSamplesFromTraf tfhdOf tfdtOf trunsOf traf moofOffset = Ok out ->
        Forall (fun s => cts s = dts s) out)
    /\ (forall segment tid out,
          getSamplesFromMoof tfhdOf tfdtOf trunsOf segment tid = Ok out ->
          Forall (fun s => cts s = dts s) out).
Proof.
  intros tfhdOf tfdtOf trunsOf. split.
  - intros traf moofOffset out. apply getSamplesFromTraf_cts.
  - intros segment tid out H. unfold getSamplesFromMoof in H.
    destruct segment as [bt off ch| | | |]; try discriminate.
    eapply mapTrafs_Forall; [|exact H].
    intros traf o. apply getSamplesFromTraf_cts.
Qed.

Lemma C10_fragment_cts_equals_dts_witness :
  getSamplesFromTraf getTfhdBox getTfdtBox getTrunBoxes twoRunsTraf 7000
    = Ok [ {| offset := 7100; size := 10; isKeyframe := true;
              dts := 0; cts := 0; duration := 1000 |};
           {| offset := 7110; size := 20; isKeyframe := false;
              dts := 1000; cts := 1000; duration := 1000 |};
           {| offset := 7530; size := 30; isKeyframe := false;
              dts := 2000; cts := 2000; duration := 1000 |};
           {| offset := 7560; size := 40; isKeyframe := false;
              dts := 3000; cts := 3000; duration := 1000 |} ]
  /\ Forall (fun s => cts s = dts s)
       [ {| offset := 7100; size := 10; isKeyframe := true;
            dts := 0; cts := 0; duration := 1000 |};
         {| offset := 7110; size := 20; isKeyframe := false;
            dts := 1000; cts := 1000; duration := 1000 |};
         {| offset := 7530; size := 30; isKeyframe := false;
            dts := 2000; cts := 2000; duration := 1000 |};
         {| offset := 7560; size := 40; isKeyframe := false;
            dts := 3000; cts := 3000; duration := 1000 |} ].
Proof.
  split; [reflexivity|].
  exact (proj1 (C10_fragment_cts_equals_dts getTfhdBox getTfdtBox getTrunBoxes)
               twoRunsTraf 7000 _ eq_refl).
Defined.

End ResolverFlagsAndTimes.

(** ** The Matroska segment parser *)
Section MatroskaClaims.
Import Js Matroska.

Variable getMatroskaSegmentId : BufferIterator -> option string * BufferIterator.
Variable getVint : BufferIterator -> option Z * BufferIterator.
Variable expectChildren :
  BufferIterator -> Z -> (list MatroskaSegment -> MatroskaSegment) -> Parsed ParseResult.
Variable parseBlockGroupSegment : BufferIterator -> Z -> Parsed (list MatroskaSegment).
Variable parseOtherSegment : string -> BufferIterator -> Z -> Z -> Parsed MatroskaSegment.

Local Abbreviation expectSegment' :=
  (expectSegment getMatroskaSegmentId getVint expectChildren
     parseBlockGroupSegment parseOtherSegment).

Lemma decrement_back (it : BufferIterator) (offset : Z) :
  getOffset (decrement (getOffset it - offset) it) = offset.
Proof. unfold getOffset, decrement. simpl. lia. Qed.

(** The checks of [expectSegment] itself: whatever the readers consumed is
    given back before ['incomplete'] is returned. *)
Lemma expectSegment_own_incomplete it res it' ev :
  expectSegment' it = Ok (res, it', ev) ->
  isIncomplete res = true ->
  bytesRemaining it = 0
  \/ (forall id len,
        headerOf getMatroskaSegmentId getVint it = Some (id, len) ->
        isContainerId id = false) ->
  getOffset it' = getOffset it /\ res = Incomplete [] ReplayExpectSegment.
Proof.
  unfold expectSegment, headerOf, isContainerId.
  intros Hrun Hinc Hown.
  destruct (Z.eqb_spec (bytesRemaining it) 0) as [Hz|Hnz].
  { injection Hrun as <- <- <-. split; reflexivity. }
  destruct Hown as [Hz|Hown]; [contradiction|].
  destruct (getMatroskaSegmentId it) as [[id|] it1].
  2:{ injection Hrun as <- <- <-. split; [apply decrement_back | reflexivity]. }
  destruct (getVint it1) as [[len|] it2]; simpl in Hown.
  2:{ injection Hrun as <- <- <-. split; [apply decrement_back | reflexivity]. }
  rewrite (Hown id len eq_refl) in Hrun.
  destruct (byteLength it2 - getOffset it2 <? len).
  { injection Hrun as <- <- <-. split; [apply decrement_back | reflexivity]. }
  destruct (parseSegment _ _ id it2 len _) as [[[seg it3] ev3]|]; simpl in Hrun;
    [|discriminate].
  injection Hrun as <- <- <-. discriminate.
Qed.

(** A Segment or Cluster is handed to [expectChildren] with the header
    consumed; its result, ['incomplete'] included, is passed on as it is. *)
Lemma expectSegment_container it id len :
  bytesRemaining it <> 0 ->
  headerOf getMatroskaSegmentId getVint it = Some (id, len) ->
  isContainerId id = true ->
  expectSegment' it
    = expectChildren (afterHeader getMatroskaSegmentId getVint it) len
        (if String.eqb id "0x18538067" then MainSegment else ClusterSegment).
Proof.
  unfold expectSegment, headerOf, isContainerId, afterHeader.
  intros Hnz Hhead Hcont.
  destruct (Z.eqb_spec (bytesRemaining it) 0) as [Hz|_]; [contradiction|].
  destruct (getMatroskaSegmentId it) as [[id'|] it1]; [|discriminate].
  simpl in *.
  destruct (getVint it1) as [[len'|] it2]; [|discriminate].
  simpl in *. injection Hhead as -> ->.
  rewrite Hcont.
  destruct (expectChildren it2 len _) as [[[main it3] ev3]|]; simpl; [|reflexivity].
  destruct main; reflexivity.
Qed.

End MatroskaClaims.

Section MatroskaTheorems.
Import Js Matroska.

(** C4 (as amended).  When [expectSegment] returns ['incomplete'] from one of
    its own checks (nothing buffered, the element id or the size VINT not
    fully buffered, or the payload of an element other than Segment and
    Cluster not fully buffered), the iterator is back at the offset it had
    on entry and the continuation replays [expectSegment].  For a Segment
    or a Cluster the header stays consumed: the result, the iterator and
    the continuation are the ones left by [expectChildren]. *)
Theorem C4_incomplete_own_checks_restore_offset :
  forall getMatroskaSegmentId getVint expectChildren parseBlockGroupSegment
         parseOtherSegment it,
    (forall res it' ev,
        expectSegment getMatroskaSegmentId getVint expectChildren
          parseBlockGroupSegment parseOtherSegment it = Ok (res, it', ev) ->
        isIncomplete res = true ->
        bytesRemaining it = 0
        \/ (forall id len,
              headerOf getMatroskaSegmentId getVint it = Some (id, len) ->
              isContainerId id = false) ->
        getOffset it' = getOffset it /\ res = Incomplete [] ReplayExpectSegment)
    /\ (forall id len,
          bytesRemaining it <> 0 ->
          headerOf getMatroskaSegmentId getVint it = Some (id, len) ->
          isContainerId id = true ->
          expectSegment getMatroskaSegmentId getVint expectChildren
            parseBlockGroupSegment parseOtherSegment it
          = expectChildren (afterHeader getMatroskaSegmentId getVint it) len
              (if String.eqb id "0x18538067" then MainSegment else ClusterSegment)).
Proof.
  intros. split.
  - intros res it' ev. apply expectSegment_own_incomplete.
  - intros id len. apply expectSegment_container.
Qed.

(** The payload of a leaf is missing: the leaf parser is not entered and
    the offset is back at 5. *)
Lemma C4_incomplete_own_checks_restore_offset_witness :
  expectSegmentOn 1 partialLeaf = Ok (Incomplete [] ReplayExpectSegment, partialLeaf, [])
  /\ getOffset partialLeaf = getOffset partialLeaf
  /\ Incomplete [] ReplayExpectSegment = Incomplete [] ReplayExpectSegment.
Proof.
  split; [reflexivity|].
  apply (proj1 (C4_incomplete_own_checks_restore_offset
                  readMatroskaSegmentId readVint
                  (fun it' length wrap =>
                     childrenLoop (expectSegmentOn 0) 0 (getOffset it') length wrap [] it' [])
                  (fun _ _ => Throw "block groups are not read by this reader")
                  skipLeaf partialLeaf)
               (Incomplete [] ReplayExpectSegment) partialLeaf []).
  - reflexivity.
  - reflexivity.
  - right. intros id len Hhead. vm_compute in Hhead.
    injection Hhead as <- <-. reflexivity.
Defined.

(** C4, counterexample.  A Segment whose first child is only partly
    buffered: [expectSegment] returns ['incomplete'] with the iterator at
    offset 5, behind the Segment header, not at the entry offset 0. *)
Lemma C4_counterexample_segment_header_stays_consumed :
  exists res it',
    expectSegmentOn 2 partialSegment = Ok (res, it', [])
    /\ isIncomplete res = true
    /\ getOffset partialSegment = 0
    /\ getOffset it' = 5
    /\ getOffset it' <> getOffset partialSegment.
Proof.
  exists (Incomplete [] (ResumeChildren [] ReplayExpectSegment)), partialLeaf.
  repeat split. discriminate.
Qed.

(** C5. For the ['0xa0'] element, [parseSegment] takes the first block
    child of the parsed BlockGroup; if that block carries a video sample it
    emits exactly one video sample, of type [delta] when the BlockGroup has
    a ReferenceBlock child and of type [key] when it has none; a block
    without a video sample makes it emit nothing. *)
Theorem C5_block_group_keyframe_inference :
  forall parseBlockGroupSegment parseOtherSegment it len headerReadSoFar seg it' ev,
    parseSegment parseBlockGroupSegment parseOtherSegment "0xa0" it len headerReadSoFar
      = Ok (seg, it', ev) ->
    exists children ev0 block,
      parseBlockGroupSegment it len = Ok (children, it', ev0)
      /\ seg = BlockGroupSegment children
      /\ List.find isBlock children = Some block
      /\ match videoSampleOf block with
         | Some p =>
           exists frame,
             ev = ev0 ++ [OnVideoSample (p_trackId p) frame]
             /\ frame = completeFrame p (type frame)
             /\ (type frame = key <-> existsb isReferenceBlock children = false)
             /\ (type frame = delta <-> existsb isReferenceBlock children = true)
         | None => ev = ev0
         end.
Proof.
  intros pbg pother it len h seg it' ev. unfold parseSegment.
  destruct (len =? 0); [discriminate|].
  change (String.eqb "0xa0" "0xa0") with true. cbv iota.
  destruct (pbg it len) as [[[children it1] ev0]|]; simpl; [|discriminate].
  unfold blockGroupSample.
  destruct (List.find isBlock children) as [block|] eqn:Hb; simpl; [|discriminate].
  assert (Href : match List.find isReferenceBlock children with
                 | Some _ => existsb isReferenceBlock children = true
                 | None => existsb isReferenceBlock children = false
                 end).
  { clear. induction children as [|c cs IH]; simpl; [reflexivity|].
    destruct (isReferenceBlock c); simpl; [reflexivity | exact IH]. }
  destruct (videoSampleOf block) as [p|] eqn:Hv; simpl; intros H;
    injection H as <- <- <-; exists children, ev0, block; rewrite Hv;
    (split; [reflexivity|]); (split; [reflexivity|]); (split; [exact Hb|]).
  - eexists. split; [reflexivity|].
    destruct (List.find isReferenceBlock children); rewrite Href; simpl;
      repeat split; try reflexivity; intros; try discriminate; congruence.
  - apply app_nil_r.
Qed.

Lemma C5_block_group_keyframe_inference_witness :
  parseSegment (fixedBlockGroup [SimpleBlockOrBlockSegment (Some sampleOnTrack1)])
    skipLeaf "0xa0" partialLeaf 2 2
    = Ok (BlockGroupSegment [SimpleBlockOrBlockSegment (Some sampleOnTrack1)],
          advance 2 partialLeaf,
          [OnVideoSample 1 (completeFrame sampleOnTrack1 key)])
  /\ parseSegment
       (fixedBlockGroup [ReferenceBlockSegment (-33);
                         SimpleBlockOrBlockSegment (Some sampleOnTrack1)])
       skipLeaf "0xa0" partialLeaf 2 2
     = Ok (BlockGroupSegment [ReferenceBlockSegment (-33);
                              SimpleBlockOrBlockSegment (Some sampleOnTrack1)],
           advance 2 partialLeaf,
           [OnVideoSample 1 (completeFrame sampleOnTrack1 delta)])
  /\ exists children ev0 block,
       fixedBlockGroup [ReferenceBlockSegment (-33);
                        SimpleBlockOrBlockSegment (Some sampleOnTrack1)] partialLeaf 2
         = Ok (children, advance 2 partialLeaf, ev0)
       /\ BlockGroupSegment [ReferenceBlockSegment (-33);
                             SimpleBlockOrBlockSegment (Some sampleOnTrack1)]
          = BlockGroupSegment children
       /\ List.find isBlock children = Some block
       /\ match videoSampleOf block with
          | Some p =>
            exists frame,
              [OnVideoSample 1 (completeFrame sampleOnTrack1 delta)]
                = ev0 ++ [OnVideoSample (p_trackId p) frame]
              /\ frame = completeFrame p (type frame)
              /\ (type frame = key <-> existsb isReferenceBlock children = false)
              /\ (type frame = delta <-> existsb isReferenceBlock children = true)
          | None => [OnVideoSample 1 (completeFrame sampleOnTrack1 delta)] = ev0
          end.
Proof.
  split; [reflexivity|]. split; [reflexivity|].
  exact (C5_block_group_keyframe_inference
           (fixedBlockGroup [ReferenceBlockSegment (-33);
                             SimpleBlockOrBlockSegment (Some sampleOnTrack1)])
           skipLeaf partialLeaf 2 2 _ _ _ eq_refl).
Defined.

End MatroskaTheorems.

(** ** The conversion controller *)
Section ControllerFacts.
Import Js ConvertMedia.

Variable convertMediaState : nat.

Lemma trace_emit e w : trace (emit e w) = trace w ++ [e].
Proof. reflexivity. Qed.

Lemma trace_modify r f w : trace (modify r f w) = trace w.
Proof. reflexivity. Qed.

Lemma readState_modify r f w : readState r (modify r f w) = f (readState r w).
Proof. unfold readState, modify. simpl. rewrite lookup_insert_eq. reflexivity. Qed.

(** The spread hands the observer a fresh object holding the current
    counters. *)
Lemma notifySpread_true w :
  notifySpread true convertMediaState w
  = {| heap := <[nextRef w := readState convertMediaState w]> (heap w);
       nextRef := S (nextRef w);
       trace := trace w ++ [MediaStateUpdate (nextRef w)] |}.
Proof. reflexivity. Qed.

(** Objects other than the counters are left alone by the four callbacks:
    a snapshot built by a spread keeps its values. *)
Lemma modify_frame r f w (r' : nat) :
  r' <> r -> heap (modify r f w) !! r' = heap w !! r'.
Proof. intros Hne. unfold modify. simpl. apply lookup_insert_ne. congruence. Qed.

Lemma notifySpread_frame b w (r' : nat) :
  (r' < nextRef w)%nat -> heap (notifySpread b convertMediaState w) !! r' = heap w !! r'.
Proof.
  intros Hlt. destruct b; [|reflexivity].
  rewrite notifySpread_true. simpl. apply lookup_insert_ne. lia.
Qed.

Lemma videoOnChunk_frame b n c w (r' : nat) :
  r' <> convertMediaState -> (r' < nextRef w)%nat ->
  heap (videoOnChunk b convertMediaState n c w) !! r' = heap w !! r'.
Proof.
  intros Hne Hlt. unfold videoOnChunk.
  rewrite notifySpread_frame by exact Hlt.
  rewrite modify_frame by exact Hne. reflexivity.
Qed.

Lemma audioOnChunk_frame b n c w (r' : nat) :
  r' <> convertMediaState -> (r' < nextRef w)%nat ->
  heap (audioOnChunk b convertMediaState n c w) !! r' = heap w !! r'.
Proof.
  intros Hne Hlt. unfold audioOnChunk.
  rewrite notifySpread_frame by exact Hlt.
  rewrite modify_frame by exact Hne. reflexivity.
Qed.

Lemma videoOnFrame_frame b w (r' : nat) :
  r' <> convertMediaState -> (r' < nextRef w)%nat ->
  heap (videoOnFrame b convertMediaState w) !! r' = heap w !! r'.
Proof.
  intros Hne Hlt. unfold videoOnFrame. simpl.
  rewrite notifySpread_frame by exact Hlt.
  rewrite modify_frame by exact Hne. reflexivity.
Qed.

Lemma audioOnFrame_frame b w (r' : nat) :
  r' <> convertMediaState ->
  heap (audioOnFrame b convertMediaState w) !! r' = heap w !! r'.
Proof.
  intros Hne. unfold audioOnFrame, notifySame.
  destruct b; simpl; apply lookup_insert_ne; congruence.
Qed.

End ControllerFacts.

Section ControllerClaims.
Import Js ConvertMedia.

(** C3. Unless the request is exactly [to = 'webm'], [videoCodec = 'vp8'],
    [audioCodec = 'opus'], [convertMedia] returns a promise rejected with a
    [TypeError] and leaves the world as it found it: no writer is created,
    no parsing is started, no object is allocated.  For the accepted
    request the writer is created and parsing starts. *)
Theorem C3_unsupported_configuration_rejected_before_io :
  forall to videoCodec audioCodec w,
    (~ (to = "webm" /\ videoCodec = "vp8" /\ audioCodec = "opus") ->
     exists msg,
       convertMedia to videoCodec audioCodec w = (Rejected (TypeError msg), w))
    /\ (to = "webm" /\ videoCodec = "vp8" /\ audioCodec = "opus" ->
        exists r w',
          convertMedia to videoCodec audioCodec w = (Pending r, w')
          /\ trace w' = trace w ++ [CreateMedia; ParseMedia]).
Proof.
  intros to videoCodec audioCodec w. unfold convertMedia. split.
  - intros Hbad.
    destruct (String.eqb_spec to "webm") as [Ht|Ht]; simpl; [|eexists; reflexivity].
    destruct (String.eqb_spec audioCodec "opus") as [Ha|Ha]; simpl; [|eexists; reflexivity].
    destruct (String.eqb_spec videoCodec "vp8") as [Hv|Hv]; simpl; [|eexists; reflexivity].
    exfalso. apply Hbad. repeat split; assumption.
  - intros (-> & -> & ->). simpl.
    eexists _, _. split; [reflexivity|].
    simpl. rewrite <- app_assoc. reflexivity.
Qed.

Lemma C3_unsupported_configuration_rejected_before_io_witness :
  ~ ("mp4" = "webm" /\ "h264" = "vp8" /\ "aac" = "opus")
  /\ exists msg,
       convertMedia "mp4" "h264" "aac" emptyWorld = (Rejected (TypeError msg), emptyWorld).
Proof.
  assert (Hbad : ~ ("mp4" = "webm" /\ "h264" = "vp8" /\ "aac" = "opus"))
    by (intros [H _]; discriminate H).
  split; [exact Hbad|].
  exact (proj1 (C3_unsupported_configuration_rejected_before_io
                  "mp4" "h264" "aac" emptyWorld) Hbad).
Defined.

(** C6, counterexample.  With the output duration read as the
    specification words it (the running maximum of the updates): after an
    encoded video chunk ending at 1033333 microseconds it is 1033, and
    after an encoded audio chunk ending at 5020000 microseconds it is still
    0; in both cases it is not the maximum of the former duration and
    [timestamp + duration]. *)
Lemma C6_counterexample_duration_not_max_of_chunk_end :
  specDuration (trace startedWorld) = 0
  /\ specDuration (trace (videoOnChunk true 0%nat 1 videoChunk startedWorld)) = 1033
  /\ Z.max (specDuration (trace startedWorld)) (chunkEnd videoChunk) = 1033333
  /\ specDuration (trace (audioOnChunk true 0%nat 2 audioChunk startedWorld)) = 0
  /\ Z.max (specDuration (trace startedWorld)) (chunkEnd audioChunk) = 5020000
  /\ ~ (forall onChunk, onChunk = videoOnChunk \/ onChunk = audioOnChunk ->
        forall b r n c w,
          specDuration (trace (onChunk b r n c w))
          = Z.max (specDuration (trace w)) (chunkEnd c)).
Proof.
  repeat split.
  intros Hclaim.
  specialize (Hclaim audioOnChunk (or_intror eq_refl) true 0%nat 2 audioChunk startedWorld).
  vm_compute in Hclaim. discriminate Hclaim.
Qed.

(** C9. The audio decoded-frame path hands the observer the counters
    object itself: the reference delivered is the one the controller keeps
    updating, so the object delivered after the first audio frame reads 2
    decoded frames after the second one; the same holds when the audio
    decoder cannot be created.  The video decoded-frame path delivers a
    fresh object that later updates leave unchanged. *)
Theorem C9_audio_decoder_path_delivers_live_counters :
  (forall convertMediaState w,
      deliveries (trace (audioOnFrame true convertMediaState w))
      = deliveries (trace w) ++ [convertMediaState])
  /\
  let w1 := audioOnFrame true 0%nat startedWorld in
  let w2 := audioOnFrame true 0%nat w1 in
  let v1 := videoOnFrame true 0%nat startedWorld in
  let v2 := videoOnFrame true 0%nat v1 in
  deliveries (trace w1) = [0%nat]
  /\ decodedAudioFrames (readState 0%nat w1) = 1
  /\ decodedAudioFrames (readState 0%nat w2) = 2
  /\ deliveries (trace (snd (onAudioTrack true 0%nat true false startedWorld))) = [0%nat]
  /\ deliveries (trace v1) = [1%nat]
  /\ decodedVideoFrames (readState 1%nat v1) = 1
  /\ decodedVideoFrames (readState 1%nat v2) = 1
  /\ decodedVideoFrames (readState 0%nat v2) = 2.
Proof.
  split; [|repeat split].
  intros self w. unfold audioOnFrame, notifySame, deliveries. simpl.
  rewrite !omap_app. simpl. rewrite !app_nil_r. reflexivity.
Qed.

End ControllerClaims.

(** ** The ISO-BMFF track serializer *)
Section SerializerClaims.
Import Js IsoMuxer.

Variable IDENTITY_MATRIX : list Z.
Variable TRACK_ENABLED TRACK_IN_MOVIE : Z.

Local Abbreviation serialize :=
  (serializeTrack IDENTITY_MATRIX TRACK_ENABLED TRACK_IN_MOVIE).

Lemma serializeTrack_codec_gate d :
  serialize d = Throw "Currently only H.264 and AAC is supported"
  <-> codec (track d) <> "h264" /\ codec (track d) <> "aac".
Proof.
  unfold serializeTrack.
  destruct (String.eqb_spec (codec (track d)) "h264") as [Hh|Hh]; simpl.
  - destruct (codecPrivate (track d));
      (split; [discriminate | intros [Hn _]; contradiction]).
  - destruct (String.eqb_spec (codec (track d)) "aac") as [Ha|Ha]; simpl.
    + destruct (codecPrivate (track d));
        (split; [discriminate | intros [_ Hn]; contradiction]).
    + split; [intros _; split; assumption | intros _; reflexivity].
Qed.

Lemma serializeTrack_ok_mdhd d trak :
  serialize d = Ok trak ->
  mdhd (mdia trak)
  = {| creationTime := None; modificationTime := None;
       duration := durationInUnits d; timescale := ISO_BASE_TIMESCALE |}.
Proof.
  unfold serializeTrack.
  destruct (negb _ && negb _); [discriminate|].
  destruct (codecPrivate (track d)); [|discriminate].
  intros H. injection H as <-. reflexivity.
Qed.

Lemma serializeTrack_supported d priv :
  codec (track d) = "h264" \/ codec (track d) = "aac" ->
  codecPrivate (track d) = Some priv ->
  exists trak, serialize d = Ok trak.
Proof.
  unfold serializeTrack. intros Hc Hp.
  rewrite Hp.
  destruct Hc as [-> | ->]; simpl; eexists; reflexivity.
Qed.

End SerializerClaims.

Section SerializerTheorems.
Import Js IsoMuxer.

(** C7 (as amended).  The base timescale of the muxer is 1000, and the
    [mdhd] of every serialized track carries that same constant as its
    timescale, whatever the timescale of the track itself. *)
Theorem C7_mdhd_timescale_is_base_timescale :
  ISO_BASE_TIMESCALE = 1000
  /\ forall IDENTITY_MATRIX TRACK_ENABLED TRACK_IN_MOVIE d trak,
      serializeTrack IDENTITY_MATRIX TRACK_ENABLED TRACK_IN_MOVIE d = Ok trak ->
      timescale (mdhd (mdia trak)) = ISO_BASE_TIMESCALE.
Proof.
  split; [reflexivity|].
  intros IM TE TM d trak H.
  rewrite (serializeTrack_ok_mdhd _ _ _ _ _ H). reflexivity.
Qed.

Lemma C7_mdhd_timescale_is_base_timescale_witness :
  (exists trak, serializeTrack identityMatrix 1 2 aacTrack = Ok trak
                /\ timescale (mdhd (mdia trak)) = ISO_BASE_TIMESCALE)
  /\ timescaleOf (track aacTrack) = 48000.
Proof.
  split; [|reflexivity].
  eexists. split; [reflexivity|].
  exact (proj2 C7_mdhd_timescale_is_base_timescale identityMatrix 1 2 aacTrack _ eq_refl).
Defined.

(** C7, counterexample.  An H.264 track whose own timescale is 90000 is
    serialized with an [mdhd] timescale of 1000. *)
Lemma C7_counterexample_track_timescale_not_carried :
  exists trak,
    serializeTrack identityMatrix 1 2 h264Track = Ok trak
    /\ timescaleOf (track h264Track) = 90000
    /\ timescale (mdhd (mdia trak)) = 1000
    /\ timescale (mdhd (mdia trak)) <> timescaleOf (track h264Track).
Proof.
  eexists. split; [reflexivity|].
  repeat split. discriminate.
Qed.

(** C8. A track whose codec is neither ['h264'] nor ['aac'] makes
    [serializeTrack] throw its unsupported-codec error, and only such a
    track does; a track with codec ['h264'] or ['aac'] and a [codecPrivate]
    is serialized. *)
Theorem C8_only_h264_and_aac_are_serialized :
  forall IDENTITY_MATRIX TRACK_ENABLED TRACK_IN_MOVIE d,
    (serializeTrack IDENTITY_MATRIX TRACK_ENABLED TRACK_IN_MOVIE d
       = Throw "Currently only H.264 and AAC is supported"
     <-> codec (track d) <> "h264" /\ codec (track d) <> "aac")
    /\ (forall priv,
          codec (track d) = "h264" \/ codec (track d) = "aac" ->
          codecPrivate (track d) = Some priv ->
          exists trak,
            serializeTrack IDENTITY_MATRIX TRACK_ENABLED TRACK_IN_MOVIE d = Ok trak).
Proof.
  intros IM TE TM d. split.
  - apply serializeTrack_codec_gate.
  - intros priv. apply serializeTrack_supported.
Qed.

Lemma C8_only_h264_and_aac_are_serialized_witness :
  (codec (track vp8Track) <> "h264" /\ codec (track vp8Track) <> "aac")
  /\ serializeTrack identityMatrix 1 2 vp8Track
     = Throw "Currently only H.264 and AAC is supported"
  /\ codec (track h264Track) = "h264"
  /\ exists trak, serializeTrack identityMatrix 1 2 h264Track = Ok trak.
Proof.
  assert (Hvp8 : codec (track vp8Track) <> "h264" /\ codec (track vp8Track) <> "aac")
    by (split; discriminate).
  split; [exact Hvp8|].
  split.
  - exact (proj2 (proj1 (C8_only_h264_and_aac_are_serialized identityMatrix 1 2 vp8Track))
                 Hvp8).
  - split; [reflexivity|].
    exact (proj2 (C8_only_h264_and_aac_are_serialized identityMatrix 1 2 h264Track)
                 [1; 100; 0; 31] (or_introl eq_refl) eq_refl).
Defined.

End SerializerTheorems.

(** ** More on the fragmented-MP4 resolver *)
Section ResolverRows.
Import Js IsoBmff.

Variable tfhdOf : IsoBaseMediaBox -> option TfhdBox.
Variable tfdtOf : IsoBaseMediaBox -> option TfdtBox.
Variable trunsOf : IsoBaseMediaBox -> list TrunBox.

Lemma sampleStep_cases tfhdBox tfdtBox moofOffset trunBox i sample st :
  match sampleStep tfhdBox tfdtBox moofOffset trunBox i sample st with
  | Ok _ => rowResolves tfhdBox trunBox i sample = true
  | Throw msg =>
    rowResolves tfhdBox trunBox i sample = false
    /\ In msg ["Expected duration"; "Expected size"; "Expected sample flags"]
  end.
Proof.
  unfold sampleStep, rowResolves.
  destruct (nullish (sampleDuration sample) _); simpl; [|split; [reflexivity | auto]].
  destruct (nullish (sampleSize sample) _); simpl; [|split; [reflexivity | auto]].
  destruct (resolveFlags _ trunBox i sample); simpl; [reflexivity | split; [reflexivity | auto]].
Qed.

Lemma sampleLoop_cases tfhdBox tfdtBox moofOffset trunBox :
  forall rows i st,
    match sampleLoop tfhdBox tfdtBox moofOffset trunBox i rows st with
    | Ok _ => rowsResolve tfhdBox trunBox i rows = true
    | Throw msg =>
      rowsResolve tfhdBox trunBox i rows = false
      /\ In msg ["Expected duration"; "Expected size"; "Expected sample flags"]
    end.
Proof.
  induction rows as [|sample rest IH]; intros i st; simpl; [reflexivity|].
  pose proof (sampleStep_cases tfhdBox tfdtBox moofOffset trunBox (i + 1) sample st) as Hs.
  destruct (sampleStep _ _ _ _ _ sample st) as [st1|msg]; simpl.
  - rewrite Hs. simpl. apply IH.
  - destruct Hs as [-> Hin]. split; [reflexivity | exact Hin].
Qed.

Lemma trunLoop_cases tfhdBox tfdtBox moofOffset :
  forall truns st,
    match trunLoop tfhdBox tfdtBox moofOffset truns st with
    | Ok _ => runsResolve tfhdBox truns = true
    | Throw msg =>
      runsResolve tfhdBox truns = false
      /\ In msg ["Expected duration"; "Expected size"; "Expected sample flags"]
    end.
Proof.
  induction truns as [|t rest IH]; intros st; simpl; [reflexivity|].
  pose proof (sampleLoop_cases tfhdBox tfdtBox moofOffset t (samples t) (-1) st) as Hl.
  destruct (sampleLoop _ _ _ t (-1) (samples t) st) as [st1|msg]; simpl.
  - rewrite Hl. simpl. apply IH.
  - destruct Hl as [-> Hin]. split; [reflexivity | exact Hin].
Qed.

Lemma getSamplesFromTraf_cases traf moofOffset :
  match getSamplesFromTraf tfhdOf tfdtOf trunsOf traf moofOffset with
  | Ok out =>
    isTraf traf = true /\ runsResolve (tfhdOf traf) (trunsOf traf) = true
  | Throw msg =>
    (isTraf traf && runsResolve (tfhdOf traf) (trunsOf traf) = false)
    /\ In msg ["Expected traf-box"; "Expected duration"; "Expected size";
               "Expected sample flags"]
  end.
Proof.
  unfold getSamplesFromTraf.
  destruct (isTraf traf); simpl; [|split; [reflexivity | auto]].
  pose proof (trunLoop_cases (tfhdOf traf) (tfdtOf traf) moofOffset (trunsOf traf)
                {| acc_offset := 0; acc_time := 0; acc_samples := [] |}) as Ht.
  destruct (trunLoop _ _ _ _ _) as [st|msg]; simpl.
  - split; [reflexivity | exact Ht].
  - destruct Ht as [Hf Hin]. split; [exact Hf|]. simpl in *. tauto.
Qed.

(** [getSamplesFromTraf] succeeds exactly on a [traf] all of whose rows find
    a duration, a size and flags, whatever the offsets and the decode time;
    otherwise it throws one of its four messages. *)
Theorem getSamplesFromTraf_succeeds_iff_rows_resolve traf moofOffset :
  match getSamplesFromTraf tfhdOf tfdtOf trunsOf traf moofOffset with
  | Ok out =>
    isTraf traf = true /\ runsResolve (tfhdOf traf) (trunsOf traf) = true
  | Throw msg =>
    (isTraf traf && runsResolve (tfhdOf traf) (trunsOf traf) = false)
    /\ In msg ["Expected traf-box"; "Expected duration"; "Expected size";
               "Expected sample flags"]
  end.
Proof. apply getSamplesFromTraf_cases. Qed.

Lemma rowsResolve_defaults h trunBox :
  present (defaultSampleDuration h) = true ->
  present (defaultSampleSize h) = true ->
  present (defaultSampleFlags h) = true ->
  forall rows i, rowsResolve (Some h) trunBox i rows = true.
Proof.
  intros Hd Hs Hf. induction rows as [|sample rest IH]; intros i; simpl; [reflexivity|].
  rewrite IH, andb_true_r. unfold rowResolves, resolveFlags, nullish. simpl.
  destruct (defaultSampleDuration h); [|discriminate].
  destruct (defaultSampleSize h); [|discriminate].
  destruct (defaultSampleFlags h); [|discriminate].
  destruct (sampleDuration sample), (sampleSize sample); simpl;
    destruct (truthy_num (sampleFlags sample)) eqn:Ht;
    try (destruct (sampleFlags sample); [reflexivity | discriminate Ht]);
    destruct (i + 1 =? 0), (firstSampleFlags trunBox); reflexivity.
Qed.

(** A [tfhd] with a default duration, size and flags makes every [traf]
    resolve: one sample position per row, never an exception. *)
Theorem getSamplesFromTraf_total_with_defaults traf moofOffset h :
  isTraf traf = true ->
  tfhdOf traf = Some h ->
  present (defaultSampleDuration h) = true ->
  present (defaultSampleSize h) = true ->
  present (defaultSampleFlags h) = true ->
  exists out,
    getSamplesFromTraf tfhdOf tfdtOf trunsOf traf moofOffset = Ok out
    /\ length out = length (flatRows (trunsOf traf)).
Proof.
  intros Htraf Hh Hd Hs Hf.
  pose proof (getSamplesFromTraf_cases traf moofOffset) as Hiff.
  destruct (getSamplesFromTraf tfhdOf tfdtOf trunsOf traf moofOffset) as [out|msg] eqn:Hrun.
  - exists out. split; [reflexivity|].
    apply getSamplesFromTraf_Consumed in Hrun as (st & <- & Hlen & _). exact Hlen.
  - exfalso. destruct Hiff as [Hfalse _].
    rewrite Htraf, Hh in Hfalse. simpl in Hfalse.
    assert (Hall : runsResolve (Some h) (trunsOf traf) = true).
    { unfold runsResolve. apply forallb_forall. intros t _.
      apply rowsResolve_defaults; assumption. }
    rewrite Hall in Hfalse. discriminate.
Qed.

End ResolverRows.

Lemma getSamplesFromTraf_total_with_defaults_witness :
  exists out,
    IsoBmff.getSamplesFromTraf IsoBmff.getTfhdBox IsoBmff.getTfdtBox IsoBmff.getTrunBoxes
      IsoBmff.bareTraf 400 = Js.Ok out
    /\ length out = length (IsoBmff.flatRows (IsoBmff.getTrunBoxes IsoBmff.bareTraf)).
Proof.
  exact (getSamplesFromTraf_total_with_defaults
           IsoBmff.getTfhdBox IsoBmff.getTfdtBox IsoBmff.getTrunBoxes
           IsoBmff.bareTraf 400 IsoBmff.fullDefaults
           eq_refl eq_refl eq_refl eq_refl eq_refl).
Defined.

Section ResolverValues.
Import Js IsoBmff.

Variable tfhdOf : IsoBaseMediaBox -> option TfhdBox.
Variable tfdtOf : IsoBaseMediaBox -> option TfdtBox.
Variable trunsOf : IsoBaseMediaBox -> list TrunBox.

Lemma sampleStep_resolved tfhdBox tfdtBox moofOffset trunBox i sample st st' :
  sampleStep tfhdBox tfdtBox moofOffset trunBox i sample st = Ok st' ->
  exists s,
    acc_samples st' = acc_samples st ++ [s]
    /\ ResolvedFrom tfhdBox (trunBox, i, sample) s.
Proof.
  unfold sampleStep, ResolvedFrom.
  destruct (nullish (sampleDuration sample) _) as [d|]; [|discriminate].
  destruct (nullish (sampleSize sample) _) as [z|]; [|discriminate].
  destruct (resolveFlags _ trunBox i sample) as [f|]; [|discriminate].
  intros H. injection H as <-. eexists. simpl.
  split; [reflexivity|]. split; [reflexivity|]. split; [reflexivity|].
  exists f. split; [reflexivity | apply keyframeOfFlags_bit16].
Qed.

Lemma sampleLoop_resolved tfhdBox tfdtBox moofOffset trunBox :
  forall rows i done st st',
    Forall2 (ResolvedFrom tfhdBox) done (acc_samples st) ->
    sampleLoop tfhdBox tfdtBox moofOffset trunBox i rows st = Ok st' ->
    Forall2 (ResolvedFrom tfhdBox) (done ++ indexFrom trunBox i rows) (acc_samples st').
Proof.
  induction rows as [|sample rest IH]; intros i done st st' Hdone Hrun; simpl in *.
  - injection Hrun as <-. rewrite app_nil_r. exact Hdone.
  - destruct (sampleStep _ _ _ _ _ sample st) as [st1|] eqn:Hstep; simpl in Hrun;
      [|discriminate].
    apply sampleStep_resolved in Hstep as (s & Hs & Hres).
    specialize (IH (i + 1) (done ++ [(trunBox, i + 1, sample)]) st1 st').
    rewrite <- app_assoc in IH. simpl in IH. apply IH; [|exact Hrun].
    rewrite Hs. apply Forall2_app; [exact Hdone|].
    constructor; [exact Hres | constructor].
Qed.

Lemma trunLoop_resolved tfhdBox tfdtBox moofOffset :
  forall truns done st st',
    Forall2 (ResolvedFrom tfhdBox) done (acc_samples st) ->
    trunLoop tfhdBox tfdtBox moofOffset truns st = Ok st' ->
    Forall2 (ResolvedFrom tfhdBox) (done ++ indexedRows truns) (acc_samples st').
Proof.
  induction truns as [|t rest IH]; intros done st st' Hdone Hrun; simpl in *.
  - injection Hrun as <-. unfold indexedRows. simpl. rewrite app_nil_r. exact Hdone.
  - destruct (sampleLoop _ _ _ t (-1) (samples t) st) as [st1|] eqn:Hloop;
      simpl in Hrun; [|discriminate].
    eapply sampleLoop_resolved in Hloop; [|exact Hdone].
    specialize (IH _ _ _ Hloop Hrun).
    unfold indexedRows in *. simpl. rewrite app_assoc. exact IH.
Qed.

(** Row by row, in order: the duration and the size of a sample position are
    the row's own values or, when the row has none, the defaults of the
    [tfhd]; [isKeyframe] says that bit 16 of the flags chosen for the row is
    clear. *)
Theorem getSamplesFromTraf_rows_resolved traf moofOffset out :
  getSamplesFromTraf tfhdOf tfdtOf trunsOf traf moofOffset = Ok out ->
  Forall2 (ResolvedFrom (tfhdOf traf)) (indexedRows (trunsOf traf)) out.
Proof.
  unfold getSamplesFromTraf.
  destruct (negb (isTraf traf)); [discriminate|].
  destruct (trunLoop _ _ _ _ _) as [st|] eqn:Hrun; simpl; [|discriminate].
  intros H. injection H as <-.
  eapply (trunLoop_resolved _ _ _ _ []) in Hrun; [exact Hrun | constructor].
Qed.

(** Consecutive sample positions: the decode time advances by the duration
    of the earlier sample, and the data follows the earlier sample's data,
    moved by the difference of the [dataOffset]s of the two runs (0 inside
    one run). *)
Theorem getSamplesFromTraf_consecutive traf moofOffset out (k : nat) s s' :
  getSamplesFromTraf tfhdOf tfdtOf trunsOf traf moofOffset = Ok out ->
  out !! k = Some s ->
  out !! S k = Some s' ->
  dts s' = dts s + duration s
  /\ exists t row t' row',
       flatRows (trunsOf traf) !! k = Some (t, row)
       /\ flatRows (trunsOf traf) !! S k = Some (t', row')
       /\ offset s' = offset s + size s
                      + (nullish_or (dataOffset t') 0 - nullish_or (dataOffset t) 0).
Proof.
  intros Hrun Hk Hk'.
  apply getSamplesFromTraf_Consumed in Hrun as (st & <- & _ & _ & _ & Hall).
  destruct (Hall k s Hk) as (t & row & Hrow & Hd & Ho & _).
  destruct (Hall (S k) s' Hk') as (t' & row' & Hrow' & Hd' & Ho' & _).
  rewrite (take_S_r _ _ _ Hk), map_app, sumZ_app in Hd', Ho'. simpl in Hd', Ho'.
  split; [lia|].
  exists t, row, t', row'. repeat split; try assumption. lia.
Qed.

End ResolverValues.

Lemma getSamplesFromTraf_rows_resolved_witness :
  Forall2 (IsoBmff.ResolvedFrom (IsoBmff.getTfhdBox IsoBmff.twoRunsTraf))
    (IsoBmff.indexedRows (IsoBmff.getTrunBoxes IsoBmff.twoRunsTraf))
    [ {| IsoBmff.offset := 7100; IsoBmff.size := 10; IsoBmff.isKeyframe := true;
         IsoBmff.dts := 0; IsoBmff.cts := 0; IsoBmff.duration := 1000 |};
      {| IsoBmff.offset := 7110; IsoBmff.size := 20; IsoBmff.isKeyframe := false;
         IsoBmff.dts := 1000; IsoBmff.cts := 1000; IsoBmff.duration := 1000 |};
      {| IsoBmff.offset := 7530; IsoBmff.size := 30; IsoBmff.isKeyframe := false;
         IsoBmff.dts := 2000; IsoBmff.cts := 2000; IsoBmff.duration := 1000 |};
      {| IsoBmff.offset := 7560; IsoBmff.size := 40; IsoBmff.isKeyframe := false;
         IsoBmff.dts := 3000; IsoBmff.cts := 3000; IsoBmff.duration := 1000 |} ].
Proof.
  exact (getSamplesFromTraf_rows_resolved
           IsoBmff.getTfhdBox IsoBmff.getTfdtBox IsoBmff.getTrunBoxes
           IsoBmff.twoRunsTraf 7000 _ eq_refl).
Defined.

Lemma getSamplesFromTraf_consecutive_witness :
  2000 = 1000 + 1000
  /\ exists t row t' row',
       IsoBmff.flatRows (IsoBmff.getTrunBoxes IsoBmff.twoRunsTraf) !! 1%nat = Some (t, row)
       /\ IsoBmff.flatRows (IsoBmff.getTrunBoxes IsoBmff.twoRunsTraf) !! 2%nat
          = Some (t', row')
       /\ 7530 = 7110 + 20
                 + (Js.nullish_or (IsoBmff.dataOffset t') 0
                    - Js.nullish_or (IsoBmff.dataOffset t) 0).
Proof.
  exact (getSamplesFromTraf_consecutive
           IsoBmff.getTfhdBox IsoBmff.getTfdtBox IsoBmff.getTrunBoxes
           IsoBmff.twoRunsTraf 7000 _ 1%nat _ _ eq_refl eq_refl eq_refl).
Defined.

Section ResolverPlacement.
Import Js IsoBmff.

Variable tfhdOf : IsoBaseMediaBox -> option TfhdBox.
Variable tfdtOf : IsoBaseMediaBox -> option TfdtBox.
Variable trunsOf : IsoBaseMediaBox -> list TrunBox.

Lemma sampleStep_shift tfhdBox tfdtBox moofOffset delta trunBox i sample st :
  sampleStep tfhdBox tfdtBox (moofOffset + delta) trunBox i sample (shiftAcc delta st)
  = mapOk (shiftAcc delta) (sampleStep tfhdBox tfdtBox moofOffset trunBox i sample st).
Proof.
  unfold sampleStep.
  destruct (nullish (sampleDuration sample) _) as [d|]; [|reflexivity].
  destruct (nullish (sampleSize sample) _) as [z|]; [|reflexivity].
  destruct (resolveFlags _ trunBox i sample) as [f|]; [|reflexivity].
  simpl. unfold shiftAcc. simpl. rewrite map_app. simpl.
  unfold shiftOffset at 2. simpl.
  replace (acc_offset st + nullish_or (dataOffset trunBox) 0 + (moofOffset + delta))
    with (acc_offset st + nullish_or (dataOffset trunBox) 0 + moofOffset + delta) by lia.
  reflexivity.
Qed.

Lemma sampleLoop_shift tfhdBox tfdtBox moofOffset delta trunBox :
  forall rows i st,
    sampleLoop tfhdBox tfdtBox (moofOffset + delta) trunBox i rows (shiftAcc delta st)
    = mapOk (shiftAcc delta) (sampleLoop tfhdBox tfdtBox moofOffset trunBox i rows st).
Proof.
  induction rows as [|sample rest IH]; intros i st; simpl; [reflexivity|].
  rewrite sampleStep_shift.
  destruct (sampleStep _ _ moofOffset _ _ sample st) as [st1|]; simpl; [apply IH | reflexivity].
Qed.

Lemma trunLoop_shift tfhdBox tfdtBox moofOffset delta :
  forall truns st,
    trunLoop tfhdBox tfdtBox (moofOffset + delta) truns (shiftAcc delta st)
    = mapOk (shiftAcc delta) (trunLoop tfhdBox tfdtBox moofOffset truns st).
Proof.
  induction truns as [|t rest IH]; intros st; simpl; [reflexivity|].
  rewrite sampleLoop_shift.
  destruct (sampleLoop _ _ moofOffset _ _ _ st) as [st1|]; simpl; [apply IH | reflexivity].
Qed.

(** Moving the [moof] by [delta] bytes moves every sample offset by [delta]
    and changes nothing else: same sizes, times, keyframe flags, and the same
    exception if there is one. *)
Theorem getSamplesFromTraf_moof_offset_shift traf moofOffset delta :
  getSamplesFromTraf tfhdOf tfdtOf trunsOf traf (moofOffset + delta)
  = mapOk (map (shiftOffset delta))
      (getSamplesFromTraf tfhdOf tfdtOf trunsOf traf moofOffset).
Proof.
  unfold getSamplesFromTraf.
  destruct (negb (isTraf traf)); [reflexivity|].
  change {| acc_offset := 0; acc_time := 0; acc_samples := [] |}
    with (shiftAcc delta {| acc_offset := 0; acc_time := 0; acc_samples := [] |}) at 1.
  rewrite trunLoop_shift.
  destruct (trunLoop _ _ moofOffset _ _) as [st|]; reflexivity.
Qed.

Lemma mapTrafs_app moofOffset tid :
  forall l1 l2,
    mapTrafs tfhdOf tfdtOf trunsOf moofOffset tid (l1 ++ l2)
    = (let* a := mapTrafs tfhdOf tfdtOf trunsOf moofOffset tid l1 in
       let* b := mapTrafs tfhdOf tfdtOf trunsOf moofOffset tid l2 in
       Ok (a ++ b)).
Proof.
  induction l1 as [|traf rest IH]; intros l2; simpl.
  - destruct (mapTrafs _ _ _ _ _ l2); reflexivity.
  - destruct (if match tfhdOf traf with Some h => trackId h =? tid | None => false end
              then getSamplesFromTraf tfhdOf tfdtOf trunsOf traf moofOffset
              else Ok []) as [here|]; simpl; [|reflexivity].
    rewrite IH.
    destruct (mapTrafs _ _ _ _ _ rest) as [a|]; simpl; [|reflexivity].
    destruct (mapTrafs _ _ _ _ _ l2) as [b|]; simpl; [|reflexivity].
    rewrite app_assoc. reflexivity.
Qed.

(** The samples of a [moof] are those of its children taken in file order:
    splitting the children in two and resolving each part gives the two
    halves of the result, and the first exception met is the one thrown. *)
Theorem getSamplesFromMoof_children_app boxType moofOffset c1 c2 tid :
  getSamplesFromMoof tfhdOf tfdtOf trunsOf (RegularBox boxType moofOffset (c1 ++ c2)) tid
  = (let* a := getSamplesFromMoof tfhdOf tfdtOf trunsOf
                 (RegularBox boxType moofOffset c1) tid in
     let* b := getSamplesFromMoof tfhdOf tfdtOf trunsOf
                 (RegularBox boxType moofOffset c2) tid in
     Ok (a ++ b)).
Proof.
  unfold getSamplesFromMoof. rewrite filter_app. apply mapTrafs_app.
Qed.

(** A [moof] without a [traf] of the requested track resolves to no sample
    at all, and does so even when the fragments of the other tracks are
    malformed: they are not looked into. *)
Theorem getSamplesFromMoof_other_tracks_ignored boxType moofOffset children tid :
  (forall c h, In c children -> isTraf c = true -> tfhdOf c = Some h -> trackId h <> tid) ->
  getSamplesFromMoof tfhdOf tfdtOf trunsOf (RegularBox boxType moofOffset children) tid
  = Ok [].
Proof.
  unfold getSamplesFromMoof.
  induction children as [|c rest IH]; intros Hother; [reflexivity|].
  rewrite filter_cons.
  assert (Hrest : mapTrafs tfhdOf tfdtOf trunsOf moofOffset tid
                    (filter (fun c => isTraf c = true) rest) = Ok []).
  { apply IH. intros c' h Hin. apply Hother. right. exact Hin. }
  destruct (decide (isTraf c = true)) as [Htraf|_]; [|exact Hrest].
  simpl. rewrite Hrest.
  destruct (tfhdOf c) as [h|] eqn:Hh; [|reflexivity].
  destruct (Z.eqb_spec (trackId h) tid) as [Heq|_]; [|reflexivity].
  exfalso. exact (Hother c h (or_introl eq_refl) Htraf Hh Heq).
Qed.

End ResolverPlacement.

Lemma getSamplesFromMoof_other_tracks_ignored_witness :
  IsoBmff.getSamplesFromTraf IsoBmff.getTfhdBox IsoBmff.getTfdtBox IsoBmff.getTrunBoxes
    IsoBmff.brokenTrafOfTrack2 0 = Js.Throw "Expected duration"
  /\ IsoBmff.getSamplesFromMoof IsoBmff.getTfhdBox IsoBmff.getTfdtBox IsoBmff.getTrunBoxes
       (IsoBmff.RegularBox "moof" 64 [IsoBmff.OtherBox "mfhd"; IsoBmff.brokenTrafOfTrack2]) 1
     = Js.Ok [].
Proof.
  split; [reflexivity|].
  apply getSamplesFromMoof_other_tracks_ignored.
  intros c h [<-|[<-|[]]] Htraf Hh; [discriminate Htraf|].
  vm_compute in Hh. injection Hh as <-. discriminate.
Defined.

(** ** Containers and codecs *)
Section CodecFacts.
Import Js CodecId.

Lemma container_cases (container : string) :
  container = "webm" \/ container = "mp4"
  \/ (String.eqb container "webm" = false /\ String.eqb container "mp4" = false).
Proof.
  destruct (String.eqb_spec container "webm") as [->|_]; [left; reflexivity|].
  destruct (String.eqb_spec container "mp4") as [->|_]; [right; left; reflexivity|].
  right; right; split; reflexivity.
Qed.

(** The three functions agree on what a container is: each of them returns
    a value for ['webm'] and ['mp4'], the containers listed by
    [getAvailableContainers], and throws for every other name. *)
Theorem container_functions_share_domain (container inputCodec : string) :
  ((exists l, getAvailableVideoCodecs container = Ok l) <-> In container getAvailableContainers)
  /\ ((exists l, getAvailableAudioCodecs container = Ok l) <-> In container getAvailableContainers)
  /\ ((exists b, canCopyVideoTrack inputCodec container = Ok b)
      <-> In container getAvailableContainers).
Proof.
  unfold getAvailableVideoCodecs, getAvailableAudioCodecs, canCopyVideoTrack,
    getAvailableContainers, availableContainers.
  destruct (container_cases container) as [->|[->|[Hw Hm]]].
  - simpl. repeat split; intros; eauto.
  - simpl. repeat split; intros; eauto.
  - rewrite Hw, Hm.
    assert (Hnot : ~ In container ["webm"; "mp4"]).
    { intros [<-|[<-|[]]]; [rewrite String.eqb_refl in Hw | rewrite String.eqb_refl in Hm];
        discriminate. }
    repeat split; intros H; try contradiction; destruct H; discriminate.
Qed.

(** Every video codec offered as an output codec of a container can also be
    copied into that container without re-encoding. *)
Theorem available_video_codecs_can_be_copied (container : string) codecs codec :
  getAvailableVideoCodecs container = Ok codecs ->
  In codec codecs ->
  canCopyVideoTrack codec container = Ok true.
Proof.
  unfold getAvailableVideoCodecs, canCopyVideoTrack.
  destruct (container_cases container) as [->|[->|[Hw Hm]]]; simpl.
  - intros H. injection H as <-. intros [<-|[<-|[]]]; reflexivity.
  - intros H. injection H as <-. intros [<-|[]]; reflexivity.
  - rewrite Hw, Hm. discriminate.
Qed.

(** No input codec can be copied into both containers: when
    [canCopyVideoTrack] answers [true] for two containers, they are the
    same. *)
Theorem copy_target_is_unique (inputCodec c1 c2 : string) :
  canCopyVideoTrack inputCodec c1 = Ok true ->
  canCopyVideoTrack inputCodec c2 = Ok true ->
  c1 = c2.
Proof.
  unfold canCopyVideoTrack.
  destruct (container_cases c1) as [->|[->|[Hw1 Hm1]]];
    destruct (container_cases c2) as [->|[->|[Hw2 Hm2]]]; simpl;
    try reflexivity;
    try (rewrite ?Hw1, ?Hm1, ?Hw2, ?Hm2; intros; discriminate).
  - intros H1 H2. injection H1 as H1. injection H2 as H2.
    apply orb_true_iff in H1 as [H1|H1]; apply String.eqb_eq in H1; subst;
      discriminate H2.
  - intros H1 H2. injection H1 as H1. injection H2 as H2.
    apply orb_true_iff in H2 as [H2|H2]; apply String.eqb_eq in H2; subst;
      discriminate H1.
Qed.

(** Of all the requests that name an available container with a video and an
    audio codec offered for it, [convertMedia] lets exactly one through:
    ['webm'] with ['vp8'] (and ['opus'], the only audio codec offered).  The
    others, ['webm'] with ['vp9'] and ['mp4'] with ['h264'] and ['aac'], are
    rejected. *)
Theorem convertMedia_accepts_one_available_combination
    (container videoCodec audioCodec : string) videoCodecs audioCodecs w :
  In container getAvailableContainers ->
  getAvailableVideoCodecs container = Ok videoCodecs ->
  In videoCodec videoCodecs ->
  getAvailableAudioCodecs container = Ok audioCodecs ->
  In audioCodec audioCodecs ->
  (exists r w',
      ConvertMedia.convertMedia container videoCodec audioCodec w
      = (ConvertMedia.Pending r, w'))
  <-> container = "webm" /\ videoCodec = "vp8".
Proof.
  unfold getAvailableContainers, availableContainers, getAvailableVideoCodecs,
    getAvailableAudioCodecs.
  intros [<-|[<-|[]]]; simpl; intros Hv Hin Ha Hin';
    injection Hv as <-; injection Ha as <-.
  - destruct Hin' as [<-|[]]. destruct Hin as [<-|[<-|[]]].
    + split; [intros _; split; reflexivity |].
      intros _. eexists _, _. reflexivity.
    + split; [|intros [_ H]; discriminate H].
      intros (r & w' & H). discriminate H.
  - destruct Hin' as [<-|[]]. destruct Hin as [<-|[]].
    split; [|intros [H _]; discriminate H].
    intros (r & w' & H). discriminate H.
Qed.

End CodecFacts.

Lemma available_video_codecs_can_be_copied_witness :
  CodecId.getAvailableVideoCodecs "webm" = Js.Ok ["vp8"; "vp9"]
  /\ CodecId.canCopyVideoTrack "vp9" "webm" = Js.Ok true.
Proof.
  split; [reflexivity|].
  apply (available_video_codecs_can_be_copied "webm" ["vp8"; "vp9"] "vp9" eq_refl).
  right. left. reflexivity.
Defined.

Lemma copy_target_is_unique_witness :
  CodecId.canCopyVideoTrack "h265" "mp4" = Js.Ok true /\ "mp4" = "mp4".
Proof.
  split; [reflexivity|].
  exact (copy_target_is_unique "h265" "mp4" "mp4" eq_refl eq_refl).
Defined.

Lemma convertMedia_accepts_one_available_combination_witness :
  (exists r w',
      ConvertMedia.convertMedia "webm" "vp9" "opus" ConvertMedia.emptyWorld
      = (ConvertMedia.Pending r, w'))
  <-> "webm" = "webm" /\ "vp9" = "vp8".
Proof.
  apply (convertMedia_accepts_one_available_combination
           "webm" "vp9" "opus" ["vp8"; "vp9"] ["opus"] ConvertMedia.emptyWorld).
  - left. reflexivity.
  - reflexivity.
  - right. left. reflexivity.
  - reflexivity.
  - left. reflexivity.
Defined.

(** ** More on the conversion controller *)
Section CallbackFacts.
Import Js ConvertMedia.

Variable convertMediaState : nat.

Lemma readState_emit e r w : readState r (emit e w) = readState r w.
Proof. reflexivity. Qed.

Lemma readState_notifySpread b w :
  readState convertMediaState (notifySpread b convertMediaState w)
  = readState convertMediaState w.
Proof.
  destruct b; [|reflexivity].
  rewrite notifySpread_true. unfold readState at 1. simpl.
  destruct (decide (nextRef w = convertMediaState)) as [->|Hne].
  - rewrite lookup_insert_eq. reflexivity.
  - rewrite lookup_insert_ne by exact Hne. reflexivity.
Qed.

Lemma readState_notifySame b w :
  readState convertMediaState (notifySame b convertMediaState w)
  = readState convertMediaState w.
Proof. destruct b; reflexivity. Qed.

Lemma runCallback_counters b cb w :
  readState convertMediaState (runCallback b convertMediaState cb w)
  = (match cb with
     | VideoChunk _ _ => incEncodedVideoFrames
     | VideoFrame => incDecodedVideoFrames
     | AudioChunk _ _ => incEncodedAudioFrames
     | AudioFrame => incDecodedAudioFrames
     end) (readState convertMediaState w).
Proof.
  destruct cb as [n c| |n c|]; simpl.
  - unfold videoOnChunk. rewrite readState_notifySpread, readState_modify. reflexivity.
  - unfold videoOnFrame. rewrite readState_emit, readState_notifySpread, readState_modify.
    reflexivity.
  - unfold audioOnChunk. rewrite readState_notifySpread, readState_modify. reflexivity.
  - unfold audioOnFrame. rewrite readState_emit, readState_notifySame, readState_modify.
    reflexivity.
Qed.

Lemma countOf_snoc p cbs cb :
  countOf p (cbs ++ [cb]) = countOf p cbs + (if p cb then 1 else 0).
Proof.
  unfold countOf. rewrite List.filter_app, length_app. simpl.
  destruct (p cb); simpl; lia.
Qed.

Lemma runCallbacks_snoc b cbs cb w :
  runCallbacks b convertMediaState (cbs ++ [cb]) w
  = runCallback b convertMediaState cb (runCallbacks b convertMediaState cbs w).
Proof. unfold runCallbacks. rewrite fold_left_app. reflexivity. Qed.

Lemma runCallback_nextRef b cb w :
  (nextRef w <= nextRef (runCallback b convertMediaState cb w))%nat.
Proof.
  destruct cb, b; simpl; unfold videoOnChunk, videoOnFrame, audioOnChunk, audioOnFrame;
    simpl; lia.
Qed.

Lemma runCallback_frame b cb w (r : nat) :
  r <> convertMediaState -> (r < nextRef w)%nat ->
  heap (runCallback b convertMediaState cb w) !! r = heap w !! r.
Proof.
  intros Hne Hlt. destruct cb as [n c| |n c|]; simpl.
  - apply videoOnChunk_frame; assumption.
  - apply videoOnFrame_frame; assumption.
  - apply audioOnChunk_frame; assumption.
  - apply audioOnFrame_frame; assumption.
Qed.

Lemma runCallbacks_frame b cbs :
  forall w (r : nat),
    r <> convertMediaState -> (r < nextRef w)%nat ->
    heap (runCallbacks b convertMediaState cbs w) !! r = heap w !! r
    /\ (nextRef w <= nextRef (runCallbacks b convertMediaState cbs w))%nat.
Proof.
  induction cbs as [|cb cbs IH]; intros w r Hne Hlt; simpl; [split; [reflexivity | lia]|].
  pose proof (runCallback_nextRef b cb w) as Hmono.
  destruct (IH (runCallback b convertMediaState cb w) r Hne ltac:(lia)) as [Hheap Hnext].
  unfold runCallbacks in *. simpl. rewrite Hheap. split; [|lia].
  apply runCallback_frame; assumption.
Qed.

Lemma notifySpread_delivery w :
  let w1 := notifySpread true convertMediaState w in
  last (deliveries (trace w1)) = Some (nextRef w)
  /\ heap w1 !! nextRef w = Some (readState convertMediaState w1)
  /\ nextRef w1 = S (nextRef w).
Proof.
  cbv zeta. rewrite (readState_notifySpread true w). rewrite notifySpread_true. simpl.
  unfold deliveries. rewrite omap_app. simpl. rewrite last_snoc, lookup_insert_eq.
  repeat split.
Qed.

Lemma runCallback_spread_delivery cb w :
  spreads cb = true ->
  let w1 := runCallback true convertMediaState cb w in
  last (deliveries (trace w1)) = Some (nextRef w)
  /\ heap w1 !! nextRef w = Some (readState convertMediaState w1)
  /\ nextRef w1 = S (nextRef w).
Proof.
  intros Hs. destruct cb as [n c| |n c|]; try discriminate Hs; cbv zeta;
    unfold runCallback, videoOnChunk, videoOnFrame, audioOnChunk; cbv zeta.
  - apply (notifySpread_delivery
             (modify convertMediaState incEncodedVideoFrames
                (emit (UpdateDuration
                         (round_div (timestamp c + nullish_or (duration c) 0) 1000))
                   (emit (AddSample c n) w)))).
  - pose proof (notifySpread_delivery
                  (modify convertMediaState incDecodedVideoFrames
                     (emit (EncodeFrame "video") w))) as (Hl & Hh & Hn).
    rewrite readState_emit, trace_emit. unfold deliveries in *.
    rewrite omap_app. simpl. rewrite app_nil_r.
    repeat split; assumption.
  - apply (notifySpread_delivery
             (modify convertMediaState incEncodedAudioFrames
                (emit (AddSample c n) w))).
Qed.

(** A snapshot built by a spread (encoded video chunk, decoded video frame,
    encoded audio chunk) is an object of its own: a new reference, different
    from that of the counters, holding the counters as they are at that
    moment, and no later callback changes it. *)
Theorem spread_snapshot_is_stable cb cbs w :
  (convertMediaState < nextRef w)%nat ->
  spreads cb = true ->
  let w1 := runCallback true convertMediaState cb w in
  let snapshot := nextRef w in
  last (deliveries (trace w1)) = Some snapshot
  /\ snapshot <> convertMediaState
  /\ heap w1 !! snapshot = Some (readState convertMediaState w1)
  /\ heap (runCallbacks true convertMediaState cbs w1) !! snapshot
     = Some (readState convertMediaState w1).
Proof.
  intros Hself Hs. simpl.
  destruct (runCallback_spread_delivery cb w Hs) as (Hlast & Hheap & Hnext).
  split; [exact Hlast|]. split; [lia|]. split; [exact Hheap|].
  rewrite <- Hheap.
  apply runCallbacks_frame; [lia | rewrite Hnext; lia].
Qed.

(** Without an observer nothing is delivered and no object is built: the
    callbacks only touch the counters. *)
Theorem no_observer_no_snapshot cbs w :
  let w' := runCallbacks false convertMediaState cbs w in
  nextRef w' = nextRef w
  /\ deliveries (trace w') = deliveries (trace w)
  /\ forall r : nat, r <> convertMediaState -> heap w' !! r = heap w !! r.
Proof.
  simpl. revert w. induction cbs as [|cb cbs IH]; intros w; simpl.
  - repeat split.
  - destruct (IH (runCallback false convertMediaState cb w)) as (Hn & Hd & Hh).
    unfold runCallbacks in *. simpl. rewrite Hn, Hd.
    split; [destruct cb; reflexivity|].
    split.
    + destruct cb; simpl;
        unfold videoOnChunk, videoOnFrame, audioOnChunk, audioOnFrame, deliveries; simpl;
        rewrite ?omap_app; simpl; rewrite ?app_nil_r; reflexivity.
    + intros r Hne. rewrite Hh by exact Hne.
      destruct cb; simpl;
        unfold videoOnChunk, videoOnFrame, audioOnChunk, audioOnFrame; simpl;
        apply lookup_insert_ne; congruence.
Qed.

End CallbackFacts.

Section EncodedChunkClaim.
Import Js ConvertMedia.

Lemma notifySpread_heap_frame self w (r : nat) :
  r <> nextRef w ->
  heap (notifySpread true self w) !! r = heap w !! r.
Proof.
  intros Hne. rewrite notifySpread_true. simpl. apply lookup_insert_ne. congruence.
Qed.

(** C6 (as amended).  On every encoded video chunk the controller adds the
    sample and hands [Math.round((timestamp + (duration ?? 0)) / 1000)], the
    end of the chunk in milliseconds, to [updateDuration].  On every encoded
    chunk, video and audio alike, it counts the chunk in [convertMediaState]
    and, when there is an observer, notifies it last, with a new object that
    is not [convertMediaState] and holds the counters as they are after the
    count; without an observer it builds and delivers nothing.  Nothing is
    said here of calls to [updateDuration] on audio chunks. *)
Theorem C6_encoded_chunk_progress :
  forall (hasObserver : bool) (convertMediaState : nat) (trackNumber : Z)
         (chunk : EncodedChunk) (w : World),
    (convertMediaState < nextRef w)%nat ->
    let notified : list Effect :=
      if hasObserver then [MediaStateUpdate (nextRef w)] else [] in
    let delivered (w' : World) : Prop :=
      if hasObserver then
        nextRef w <> convertMediaState
        /\ heap w' !! nextRef w = Some (readState convertMediaState w')
        /\ nextRef w' = S (nextRef w)
        /\ forall r : nat, r <> convertMediaState -> r <> nextRef w ->
                          heap w' !! r = heap w !! r
      else
        nextRef w' = nextRef w
        /\ forall r : nat, r <> convertMediaState -> heap w' !! r = heap w !! r in
    (let w' := videoOnChunk hasObserver convertMediaState trackNumber chunk w in
     trace w' = trace w ++ [AddSample chunk trackNumber;
                            UpdateDuration (round_div (chunkEnd chunk) 1000)]
                  ++ notified
     /\ readState convertMediaState w'
        = incEncodedVideoFrames (readState convertMediaState w)
     /\ delivered w')
    /\ (let w' := audioOnChunk hasObserver convertMediaState trackNumber chunk w in
        List.filter (fun e => negb (isUpdateDuration e)) (trace w')
        = List.filter (fun e => negb (isUpdateDuration e)) (trace w)
            ++ [AddSample chunk trackNumber] ++ notified
        /\ readState convertMediaState w'
           = incEncodedAudioFrames (readState convertMediaState w)
        /\ delivered w').
Proof.
  intros b self n c w Hself. cbv zeta. split.
  - split; [|split].
    + unfold videoOnChunk, notifySpread, chunkEnd. destruct b; simpl;
        rewrite <- ?app_assoc; simpl; rewrite ?app_nil_r; reflexivity.
    + exact (runCallback_counters self b (VideoChunk n c) w).
    + destruct b.
      * destruct (runCallback_spread_delivery self (VideoChunk n c) w eq_refl)
          as (_ & Hheap & Hnext).
        split; [lia|]. split; [exact Hheap|]. split; [exact Hnext|].
        intros r Hr Hr'. unfold videoOnChunk.
        rewrite notifySpread_heap_frame by exact Hr'.
        rewrite modify_frame by exact Hr. reflexivity.
      * split; [reflexivity|]. intros r Hr. unfold videoOnChunk, notifySpread.
        rewrite modify_frame by exact Hr. reflexivity.
  - split; [|split].
    + unfold audioOnChunk, notifySpread. destruct b; simpl;
        rewrite ?List.filter_app; simpl; rewrite <- ?app_assoc; simpl;
        rewrite ?app_nil_r; reflexivity.
    + exact (runCallback_counters self b (AudioChunk n c) w).
    + destruct b.
      * destruct (runCallback_spread_delivery self (AudioChunk n c) w eq_refl)
          as (_ & Hheap & Hnext).
        split; [lia|]. split; [exact Hheap|]. split; [exact Hnext|].
        intros r Hr Hr'. unfold audioOnChunk.
        rewrite notifySpread_heap_frame by exact Hr'.
        rewrite modify_frame by exact Hr. reflexivity.
      * split; [reflexivity|]. intros r Hr. unfold audioOnChunk, notifySpread.
        rewrite modify_frame by exact Hr. reflexivity.
Qed.

(** One encoded video chunk and one encoded audio chunk after the start,
    with an observer: each is counted, and the object delivered is
    reference 1, not the counters under reference 0. *)
Lemma C6_encoded_chunk_progress_witness :
  (0 < nextRef startedWorld)%nat
  /\ trace (videoOnChunk true 0%nat 1 videoChunk startedWorld)
     = trace startedWorld ++ [AddSample videoChunk 1; UpdateDuration 1033]
         ++ [MediaStateUpdate 1%nat]
  /\ encodedVideoFrames (readState 0%nat (videoOnChunk true 0%nat 1 videoChunk startedWorld))
     = 1
  /\ heap (videoOnChunk true 0%nat 1 videoChunk startedWorld) !! 1%nat
     = Some (readState 0%nat (videoOnChunk true 0%nat 1 videoChunk startedWorld))
  /\ encodedAudioFrames (readState 0%nat (audioOnChunk true 0%nat 1 videoChunk startedWorld))
     = 1.
Proof.
  assert (Hself : (0 < nextRef startedWorld)%nat) by (vm_compute; lia).
  split; [exact Hself|].
  pose proof (C6_encoded_chunk_progress true 0%nat 1 videoChunk startedWorld Hself) as P.
  cbv zeta in P.
  destruct P as ((Htrace & Hcount & _ & Hheap & _) & (_ & Hcount' & _)).
  split; [exact Htrace|].
  split; [rewrite Hcount; reflexivity|].
  split; [exact Hheap|].
  rewrite Hcount'. reflexivity.
Defined.

End EncodedChunkClaim.

Section ObserverFacts.
Import Js ConvertMedia.
Variable convertMediaState : nat.

Lemma runCallback_deliveries b cb w :
  deliveries (trace (runCallback b convertMediaState cb w))
  = deliveries (trace w)
      ++ (if b then [if spreads cb then nextRef w else convertMediaState] else []).
Proof.
  destruct cb, b; simpl;
    unfold videoOnChunk, videoOnFrame, audioOnChunk, audioOnFrame, deliveries; simpl;
    rewrite ?omap_app; simpl; rewrite <- ?app_assoc; simpl; rewrite ?app_nil_r;
    reflexivity.
Qed.

Lemma wasDelivered_other r w :
  Forall (fun r' => r' <> convertMediaState) (deliveries (trace w)) ->
  wasDelivered r w = true -> r <> convertMediaState.
Proof.
  intros Hall Hd. unfold wasDelivered in Hd.
  apply existsb_exists in Hd. destruct Hd as (r' & Hin & Heq).
  apply Nat.eqb_eq in Heq. subst r'.
  rewrite List.Forall_forall in Hall. exact (Hall r Hin).
Qed.

Lemma readState_modify_other r f w :
  r <> convertMediaState ->
  readState convertMediaState (modify r f w) = readState convertMediaState w.
Proof.
  intros Hne. unfold readState at 1. rewrite modify_frame by congruence. reflexivity.
Qed.

Lemma countOf_cons p cb cbs :
  countOf p (cb :: cbs) = (if p cb then 1 else 0) + countOf p cbs.
Proof. unfold countOf. simpl. destruct (p cb); simpl length; lia. Qed.

Lemma runSteps_counters b steps :
  (b = true -> Forall (fun s => s <> Call AudioFrame) steps) ->
  forall w,
    (convertMediaState < nextRef w)%nat ->
    Forall (fun r => r <> convertMediaState) (deliveries (trace w)) ->
    let before := readState convertMediaState w in
    let after := readState convertMediaState (runSteps b convertMediaState steps w) in
    encodedVideoFrames after
    = encodedVideoFrames before + countOf isVideoChunk (callsOf steps)
    /\ decodedVideoFrames after
       = decodedVideoFrames before + countOf isVideoFrame (callsOf steps)
    /\ encodedAudioFrames after
       = encodedAudioFrames before + countOf isAudioChunk (callsOf steps)
    /\ decodedAudioFrames after
       = decodedAudioFrames before + countOf isAudioFrame (callsOf steps).
Proof.
  cbv zeta. induction steps as [|s steps IH]; intros Hquiet w Hself Hall.
  - unfold countOf. simpl. repeat split; lia.
  - assert (Hquiet' : b = true -> Forall (fun s => s <> Call AudioFrame) steps).
    { intros Hb. specialize (Hquiet Hb). inversion Hquiet; assumption. }
    change (runSteps b convertMediaState (s :: steps) w)
      with (runSteps b convertMediaState steps (runStep b convertMediaState s w)).
    destruct s as [cb|r f].
    + assert (Hself' : (convertMediaState
                        < nextRef (runStep b convertMediaState (Call cb) w))%nat).
      { pose proof (runCallback_nextRef convertMediaState b cb w). simpl. lia. }
      assert (Hall' : Forall (fun r => r <> convertMediaState)
                        (deliveries (trace (runStep b convertMediaState (Call cb) w)))).
      { simpl. rewrite runCallback_deliveries. apply Forall_app. split; [exact Hall|].
        destruct b; [|constructor].
        constructor; [|constructor].
        destruct cb; simpl; try lia.
        specialize (Hquiet eq_refl). inversion Hquiet as [|? ? Hhead _].
        contradiction Hhead. reflexivity. }
      destruct (IH Hquiet' _ Hself' Hall') as (H1 & H2 & H3 & H4).
      rewrite H1, H2, H3, H4. simpl runStep. rewrite runCallback_counters.
      change (callsOf (Call cb :: steps)) with (cb :: callsOf steps).
      rewrite !countOf_cons.
      destruct cb; simpl; repeat split; lia.
    + change (callsOf (ObserverWrites r f :: steps)) with (callsOf steps).
      simpl runStep. destruct (wasDelivered r w) eqn:Hd.
      * pose proof (wasDelivered_other r w Hall Hd) as Hne.
        destruct (IH Hquiet' (modify r f w) Hself Hall) as (H1 & H2 & H3 & H4).
        rewrite H1, H2, H3, H4, readState_modify_other by exact Hne.
        repeat split.
      * exact (IH Hquiet' w Hself Hall).
Qed.

Lemma audio_frame_hands_over_counters f w :
  readState convertMediaState
    (runSteps true convertMediaState [Call AudioFrame; ObserverWrites convertMediaState f] w)
  = f (incDecodedAudioFrames (readState convertMediaState w)).
Proof.
  unfold runSteps. simpl fold_left.
  assert (Hd : wasDelivered convertMediaState (audioOnFrame true convertMediaState w) = true).
  { unfold wasDelivered.
    change (audioOnFrame true convertMediaState w)
      with (runCallback true convertMediaState AudioFrame w).
    rewrite runCallback_deliveries.
    rewrite existsb_app. simpl. rewrite Nat.eqb_refl. apply orb_true_r. }
  rewrite Hd. rewrite readState_modify.
  f_equal. exact (runCallback_counters convertMediaState true AudioFrame w).
Qed.

(** The counters count the callbacks, also against an observer that writes
    to everything it is handed.  Start where the observer has not been
    handed the counters themselves, and let the steps be codec callbacks and
    writes of the observer, in any order; with an observer, let no step be a
    decoded audio frame.  Then each of the four counters has grown by the
    number of callbacks of its kind, whatever the observer wrote.  The
    exclusion is needed: a decoded audio frame hands the observer the counters
    themselves, and what it writes then is what they hold. *)
Theorem counters_count_callbacks_despite_observer hasObserver steps w :
  (convertMediaState < nextRef w)%nat ->
  Forall (fun r => r <> convertMediaState) (deliveries (trace w)) ->
  (hasObserver = true -> Forall (fun s => s <> Call AudioFrame) steps) ->
  (let before := readState convertMediaState w in
   let after := readState convertMediaState
                  (runSteps hasObserver convertMediaState steps w) in
   encodedVideoFrames after
   = encodedVideoFrames before + countOf isVideoChunk (callsOf steps)
   /\ decodedVideoFrames after
      = decodedVideoFrames before + countOf isVideoFrame (callsOf steps)
   /\ encodedAudioFrames after
      = encodedAudioFrames before + countOf isAudioChunk (callsOf steps)
   /\ decodedAudioFrames after
      = decodedAudioFrames before + countOf isAudioFrame (callsOf steps))
  /\ (forall f,
        readState convertMediaState
          (runSteps true convertMediaState
             [Call AudioFrame; ObserverWrites convertMediaState f] w)
        = f (incDecodedAudioFrames (readState convertMediaState w))).
Proof.
  intros Hself Hall Hquiet. split.
  - exact (runSteps_counters hasObserver steps Hquiet w Hself Hall).
  - intros f. apply audio_frame_hands_over_counters.
Qed.

End ObserverFacts.

(** After the start, with an observer that overwrites the snapshot of the
    first video chunk with hundreds: the counters hold 1, 1, 1 and 0. *)
Lemma counters_count_callbacks_despite_observer_witness :
  let steps := [ConvertMedia.Call (ConvertMedia.VideoChunk 1 ConvertMedia.videoChunk);
                ConvertMedia.ObserverWrites 1%nat (fun _ => ConvertMedia.hundred);
                ConvertMedia.Call ConvertMedia.VideoFrame;
                ConvertMedia.Call (ConvertMedia.AudioChunk 2 ConvertMedia.audioChunk)] in
  let after := ConvertMedia.readState 0%nat
                 (ConvertMedia.runSteps true 0%nat steps ConvertMedia.startedWorld) in
  (0 < ConvertMedia.nextRef ConvertMedia.startedWorld)%nat
  /\ ConvertMedia.encodedVideoFrames after = 1
  /\ ConvertMedia.decodedVideoFrames after = 1
  /\ ConvertMedia.encodedAudioFrames after = 1
  /\ ConvertMedia.decodedAudioFrames after = 0
  /\ ConvertMedia.heap (ConvertMedia.runSteps true 0%nat steps ConvertMedia.startedWorld)
       !! 1%nat = Some ConvertMedia.hundred.
Proof.
  cbv zeta.
  assert (Hself : (0 < ConvertMedia.nextRef ConvertMedia.startedWorld)%nat)
    by (vm_compute; lia).
  split; [exact Hself|].
  destruct (counters_count_callbacks_despite_observer 0%nat true
              [ConvertMedia.Call (ConvertMedia.VideoChunk 1 ConvertMedia.videoChunk);
               ConvertMedia.ObserverWrites 1%nat (fun _ => ConvertMedia.hundred);
               ConvertMedia.Call ConvertMedia.VideoFrame;
               ConvertMedia.Call (ConvertMedia.AudioChunk 2 ConvertMedia.audioChunk)]
              ConvertMedia.startedWorld Hself)
    as ((H1 & H2 & H3 & H4) & _).
  - vm_compute. constructor.
  - intros _. repeat constructor; discriminate.
  - split; [rewrite H1; reflexivity|].
    split; [rewrite H2; reflexivity|].
    split; [rewrite H3; reflexivity|].
    split; [rewrite H4; reflexivity|].
    reflexivity.
Defined.

Lemma spread_snapshot_is_stable_witness :
  let w1 := ConvertMedia.runCallback true 0%nat ConvertMedia.VideoFrame
              ConvertMedia.startedWorld in
  (0 < ConvertMedia.nextRef ConvertMedia.startedWorld)%nat
  /\ last (ConvertMedia.deliveries (ConvertMedia.trace w1)) = Some 1%nat
  /\ 1%nat <> 0%nat
  /\ ConvertMedia.heap w1 !! 1%nat = Some (ConvertMedia.readState 0%nat w1)
  /\ ConvertMedia.heap
       (ConvertMedia.runCallbacks true 0%nat
          [ConvertMedia.AudioFrame; ConvertMedia.VideoFrame;
           ConvertMedia.VideoChunk 1 ConvertMedia.videoChunk] w1) !! 1%nat
     = Some (ConvertMedia.readState 0%nat w1).
Proof.
  cbv zeta. split; [vm_compute; lia|].
  apply (spread_snapshot_is_stable 0%nat ConvertMedia.VideoFrame
           [ConvertMedia.AudioFrame; ConvertMedia.VideoFrame;
            ConvertMedia.VideoChunk 1 ConvertMedia.videoChunk]
           ConvertMedia.startedWorld).
  - vm_compute. lia.
  - reflexivity.
Defined.

Section TrackSetupFacts.
Import Js ConvertMedia.

(** Of the calls a track handler makes to the muxer and to the observer,
    the first is [addTrack], on every path: a track that is then skipped has
    been added all the same.  The sample handler is returned exactly when the
    encoder and the decoder are both available, and then one finish promise
    is registered and the observer is not called; otherwise the track is
    skipped, no finish promise is registered and the observer, if there is
    one, is called exactly once. *)
Theorem track_setup_outcome hasObserver convertMediaState encoderOk decoderOk w :
  let video := onVideoTrack hasObserver convertMediaState encoderOk decoderOk w in
  let audio := onAudioTrack hasObserver convertMediaState encoderOk decoderOk w in
  fst video = encoderOk && decoderOk
  /\ fst audio = encoderOk && decoderOk
  /\ (exists rest,
        trace (snd video) = trace w ++ AddTrack "video" :: rest
        /\ length (List.filter isWaitForFinish rest) = (if fst video then 1 else 0)%nat
        /\ length (deliveries rest)
           = (if hasObserver && negb (fst video) then 1 else 0)%nat)
  /\ (exists rest,
        trace (snd audio) = trace w ++ AddTrack "audio" :: rest
        /\ length (List.filter isWaitForFinish rest) = (if fst audio then 1 else 0)%nat
        /\ length (deliveries rest)
           = (if hasObserver && negb (fst audio) then 1 else 0)%nat).
Proof.
  cbv zeta. unfold onVideoTrack, onAudioTrack, notifySpread, notifySame.
  destruct encoderOk, decoderOk, hasObserver; simpl;
    (split; [reflexivity|]); (split; [reflexivity|]);
    split; eexists; (split; [rewrite <- ?app_assoc; reflexivity|]); split; reflexivity.
Qed.

Lemma round_div_1000 (n : Z) :
  n - 500 < 1000 * round_div n 1000 <= n + 500.
Proof.
  unfold round_div.
  pose proof (Z.div_mod (2 * n + 1000) 2000 ltac:(lia)) as Hdm.
  pose proof (Z.mod_pos_bound (2 * n + 1000) 2000 ltac:(lia)) as Hb.
  change (2 * 1000) with 2000. lia.
Qed.

(** An encoded video chunk makes exactly one call to [updateDuration], with
    the end of the chunk ([timestamp + (duration ?? 0)]) in whole
    milliseconds, at most half a millisecond away from the exact end. *)
Theorem video_chunk_updates_duration_in_milliseconds
    hasObserver convertMediaState trackNumber chunk w :
  let w' := videoOnChunk hasObserver convertMediaState trackNumber chunk w in
  let newDuration := round_div (chunkEnd chunk) 1000 in
  List.filter isUpdateDuration (trace w')
  = List.filter isUpdateDuration (trace w) ++ [UpdateDuration newDuration]
  /\ chunkEnd chunk - 500 < 1000 * newDuration <= chunkEnd chunk + 500.
Proof.
  cbv zeta. split.
  - unfold videoOnChunk, notifySpread. destruct hasObserver; simpl;
      rewrite ?List.filter_app; simpl; rewrite ?app_nil_r; reflexivity.
  - apply round_div_1000.
Qed.

End TrackSetupFacts.

(** ** More on the Matroska segment parser *)
Section SegmentEdgeCases.
Import Js Matroska.

Variable getMatroskaSegmentId : BufferIterator -> option string * BufferIterator.
Variable getVint : BufferIterator -> option Z * BufferIterator.
Variable expectChildren :
  BufferIterator -> Z -> (list MatroskaSegment -> MatroskaSegment) -> Parsed ParseResult.
Variable parseBlockGroupSegment : BufferIterator -> Z -> Parsed (list MatroskaSegment).
Variable parseOtherSegment : string -> BufferIterator -> Z -> Z -> Parsed MatroskaSegment.

(** An element of size 0 that is not a Segment or a Cluster is not parsed:
    once its header is read, [expectSegment] throws, whatever the element
    id. *)
Theorem expectSegment_zero_size_element_throws it id :
  bytesRemaining it <> 0 ->
  headerOf getMatroskaSegmentId getVint it = Some (id, 0) ->
  isContainerId id = false ->
  getOffset (afterHeader getMatroskaSegmentId getVint it)
    <= byteLength (afterHeader getMatroskaSegmentId getVint it) ->
  expectSegment getMatroskaSegmentId getVint expectChildren
    parseBlockGroupSegment parseOtherSegment it
  = Throw ("Expected length of " ++ id ++ " to be greater than 0")%string.
Proof.
  unfold expectSegment, headerOf, isContainerId, afterHeader, parseSegment.
  intros Hnz Hhead Hleaf Hin.
  destruct (Z.eqb_spec (bytesRemaining it) 0) as [Hz|_]; [contradiction|].
  destruct (getMatroskaSegmentId it) as [[id'|] it1]; [|discriminate].
  simpl in *.
  destruct (getVint it1) as [[len|] it2]; [|discriminate].
  simpl in *. injection Hhead as -> ->.
  rewrite Hleaf.
  destruct (Z.ltb_spec (byteLength it2 - getOffset it2) 0) as [Hlt|_]; [lia|].
  reflexivity.
Qed.

(** A BlockGroup is accepted exactly when it has a block child: without one
    (an empty group included) [parseSegment] throws. *)
Theorem parseSegment_block_group_needs_block it len headerReadSoFar children it1 ev0 :
  len <> 0 ->
  parseBlockGroupSegment it len = Ok (children, it1, ev0) ->
  (parseSegment parseBlockGroupSegment parseOtherSegment "0xa0" it len headerReadSoFar
   = Throw "Expected block segment"
   <-> existsb isBlock children = false)
  /\ ((exists ev, parseSegment parseBlockGroupSegment parseOtherSegment "0xa0" it len
                    headerReadSoFar = Ok (BlockGroupSegment children, it1, ev))
      <-> existsb isBlock children = true).
Proof.
  intros Hlen Hbg. unfold parseSegment.
  destruct (Z.eqb_spec len 0) as [Hz|_]; [contradiction|].
  change (String.eqb "0xa0" "0xa0") with true. cbv iota.
  rewrite Hbg. simpl. unfold blockGroupSample.
  assert (Hfind : match List.find isBlock children with
                  | Some _ => existsb isBlock children = true
                  | None => existsb isBlock children = false
                  end).
  { clear. induction children as [|c cs IH]; simpl; [reflexivity|].
    destruct (isBlock c); simpl; [reflexivity | exact IH]. }
  destruct (List.find isBlock children) as [block|]; rewrite Hfind; simpl.
  - destruct (videoSampleOf block); simpl;
      (split; [split; intros; discriminate | split; [reflexivity | eauto]]).
  - split; [split; reflexivity|].
    split; [intros [ev H]; discriminate H | discriminate].
Qed.

(** Only the first block of a BlockGroup and the mere presence of a
    ReferenceBlock count: further blocks, the place of the ReferenceBlock
    and its value change nothing, and at most one video sample is emitted. *)
Theorem blockGroupSample_first_block_and_reference_presence children block :
  List.find isBlock children = Some block ->
  blockGroupSample children
  = blockGroupSample
      (block :: if existsb isReferenceBlock children then [ReferenceBlockSegment 0] else [])
  /\ exists events,
       blockGroupSample children = Ok events /\ (length events <= 1)%nat.
Proof.
  intros Hb.
  assert (Hblock : isBlock block = true) by (apply List.find_some in Hb; tauto).
  assert (Href : match List.find isReferenceBlock children with
                 | Some _ => existsb isReferenceBlock children = true
                 | None => existsb isReferenceBlock children = false
                 end).
  { clear. induction children as [|c cs IH]; simpl; [reflexivity|].
    destruct (isReferenceBlock c); simpl; [reflexivity | exact IH]. }
  unfold blockGroupSample. rewrite Hb. simpl. rewrite Hblock.
  destruct block; try discriminate Hblock. simpl.
  destruct (List.find isReferenceBlock children); rewrite Href; simpl;
    destruct videoSample; simpl; split;
    try reflexivity; eexists; split; try reflexivity; simpl; lia.
Qed.

End SegmentEdgeCases.

Lemma expectSegment_zero_size_element_throws_witness :
  Matroska.expectSegmentOn 1 Matroska.emptyLeaf
  = Js.Throw "Expected length of 0xd7 to be greater than 0".
Proof.
  apply (expectSegment_zero_size_element_throws
           Matroska.readMatroskaSegmentId Matroska.readVint
           (fun it' length wrap =>
              Matroska.childrenLoop (Matroska.expectSegmentOn 0) 0
                (Matroska.getOffset it') length wrap [] it' [])
           (fun _ _ => Js.Throw "block groups are not read by this reader")
           Matroska.skipLeaf Matroska.emptyLeaf "0xd7").
  - vm_compute. discriminate.
  - reflexivity.
  - reflexivity.
  - vm_compute. discriminate.
Defined.

Lemma parseSegment_block_group_needs_block_witness :
  Matroska.parseSegment (Matroska.fixedBlockGroup [Matroska.ReferenceBlockSegment 7])
    Matroska.skipLeaf "0xa0" Matroska.partialLeaf 2 2
  = Js.Throw "Expected block segment".
Proof.
  apply (proj1 (parseSegment_block_group_needs_block
                  (Matroska.fixedBlockGroup [Matroska.ReferenceBlockSegment 7])
                  Matroska.skipLeaf Matroska.partialLeaf 2 2
                  [Matroska.ReferenceBlockSegment 7]
                  (Matroska.advance 2 Matroska.partialLeaf) []
                  ltac:(discriminate) eq_refl)).
  reflexivity.
Defined.

Lemma blockGroupSample_first_block_and_reference_presence_witness :
  Matroska.blockGroupSample
    [ Matroska.SimpleBlockOrBlockSegment (Some Matroska.sampleOnTrack1);
      Matroska.SimpleBlockOrBlockSegment None;
      Matroska.ReferenceBlockSegment (-40) ]
  = Matroska.blockGroupSample
      [ Matroska.SimpleBlockOrBlockSegment (Some Matroska.sampleOnTrack1);
        Matroska.ReferenceBlockSegment 0 ].
Proof.
  exact (proj1 (blockGroupSample_first_block_and_reference_presence
                  [ Matroska.SimpleBlockOrBlockSegment (Some Matroska.sampleOnTrack1);
                    Matroska.SimpleBlockOrBlockSegment None;
                    Matroska.ReferenceBlockSegment (-40) ]
                  (Matroska.SimpleBlockOrBlockSegment (Some Matroska.sampleOnTrack1))
                  eq_refl)).
Defined.

(** ** More on the ISO-BMFF track serializer *)
Section SerializerShape.
Import Js IsoMuxer.

Variable IDENTITY_MATRIX : list Z.
Variable TRACK_ENABLED TRACK_IN_MOVIE : Z.

Local Abbreviation serialize' :=
  (serializeTrack IDENTITY_MATRIX TRACK_ENABLED TRACK_IN_MOVIE).

(** [serializeTrack] throws ['Missing codecPrivate'] exactly for an H.264 or
    AAC track without codec-private data; for any other codec the codec is
    reported first, with or without codec-private data. *)
Theorem serializeTrack_missing_codec_private d :
  (serialize' d = Throw "Missing codecPrivate"
   <-> (codec (track d) = "h264" \/ codec (track d) = "aac")
       /\ codecPrivate (track d) = None)
  /\ (codec (track d) <> "h264" -> codec (track d) <> "aac" ->
      serialize' d = Throw "Currently only H.264 and AAC is supported").
Proof.
  unfold serializeTrack.
  destruct (String.eqb_spec (codec (track d)) "h264") as [Hh|Hh];
    destruct (String.eqb_spec (codec (track d)) "aac") as [Ha|Ha]; simpl.
  - destruct (codecPrivate (track d)); split; try contradiction;
      (split; [intros H; try discriminate H; tauto | intros [_ H]; try discriminate H; reflexivity]).
  - destruct (codecPrivate (track d)); split; try contradiction;
      (split; [intros H; try discriminate H; tauto | intros [_ H]; try discriminate H; reflexivity]).
  - destruct (codecPrivate (track d)); split; try contradiction;
      (split; [intros H; try discriminate H; tauto | intros [_ H]; try discriminate H; reflexivity]).
  - split; [|reflexivity].
    split; [discriminate | intros [[H|H] _]; contradiction].
Qed.

(** In every serialized track the edit list, the media header and the track
    header carry the same duration, the one given as [durationInUnits]; the
    edit starts at media time 0, the track header names the track by its
    [trackNumber] and the sample table holds the given sample positions. *)
Theorem serializeTrack_durations_agree d trak :
  serialize' d = Ok trak ->
  segmentDuration (edts trak) = durationInUnits d
  /\ mediaTime (edts trak) = 0
  /\ duration (mdhd (mdia trak)) = durationInUnits d
  /\ (tkhdIsWrong (tkhd trak) = false ->
      tkhdDuration (tkhd trak) = Some (durationInUnits d)
      /\ tkhdTrackId (tkhd trak) = Some (trackNumber (track d)))
  /\ stblSamplePositions (stblAtom (minf (mdia trak))) = samplePositions d.
Proof.
  unfold serializeTrack.
  destruct (negb _ && negb _); [discriminate|].
  destruct (codecPrivate (track d)); [|discriminate].
  intros H. injection H as <-. simpl.
  repeat split; destruct (String.eqb (codec (track d)) "aac"); simpl in *;
    try reflexivity; destruct (track d); simpl in *; try reflexivity; discriminate.
Qed.

(** The track header follows the codec while the handler and the sample
    entry follow the track type.  An audio track with codec ['h264'] is not
    refused: it is serialized with the placeholder in place of its track
    header, and this is the only way to get the placeholder.  A track whose
    type fits its codec gets a header, a handler and a sample entry of the
    same kind. *)
Theorem serializeTrack_kinds d trak :
  serialize' d = Ok trak ->
  (tkhdIsWrong (tkhd trak) = true
   <-> isVideoTrack (track d) = false /\ codec (track d) = "h264")
  /\ (tkhdIsAudio (tkhd trak) = true <-> codec (track d) = "aac")
  /\ (hdlr (mdia trak) = HdlrVideo <-> isVideoTrack (track d) = true)
  /\ entryIsAudio (codecSpecificData (stblAtom (minf (mdia trak))))
     = negb (isVideoTrack (track d)).
Proof.
  unfold serializeTrack.
  destruct (String.eqb_spec (codec (track d)) "h264") as [Hh|Hh];
    destruct (String.eqb_spec (codec (track d)) "aac") as [Ha|Ha]; simpl;
    try discriminate;
    (destruct (codecPrivate (track d)); [|discriminate]);
    intros H; injection H as <-; simpl;
    destruct (track d) as [v|a]; simpl in *;
    repeat split; intros; try discriminate; try reflexivity; try tauto; try congruence;
    match goal with H : _ /\ _ |- _ => destruct H; discriminate end.
Qed.

End SerializerShape.

Lemma serializeTrack_missing_codec_private_witness :
  IsoMuxer.serializeTrack IsoMuxer.identityMatrix 1 2 IsoMuxer.h264TrackNoPrivate
  = Js.Throw "Missing codecPrivate".
Proof.
  apply (proj1 (serializeTrack_missing_codec_private
                  IsoMuxer.identityMatrix 1 2 IsoMuxer.h264TrackNoPrivate)).
  split; [left; reflexivity | reflexivity].
Defined.

Lemma serializeTrack_durations_agree_witness :
  exists trak,
    IsoMuxer.serializeTrack IsoMuxer.identityMatrix 1 2 IsoMuxer.h264Track = Js.Ok trak
    /\ IsoMuxer.segmentDuration (IsoMuxer.edts trak) = 2000
    /\ IsoMuxer.duration (IsoMuxer.mdhd (IsoMuxer.mdia trak)) = 2000.
Proof.
  eexists. split; [reflexivity|].
  pose proof (serializeTrack_durations_agree IsoMuxer.identityMatrix 1 2
                IsoMuxer.h264Track _ eq_refl) as (H1 & _ & H3 & _).
  split; [exact H1 | exact H3].
Defined.

Lemma serializeTrack_kinds_witness :
  exists trak,
    IsoMuxer.serializeTrack IsoMuxer.identityMatrix 1 2 IsoMuxer.h264AudioTrack = Js.Ok trak
    /\ IsoMuxer.tkhdIsWrong (IsoMuxer.tkhd trak) = true.
Proof.
  eexists. split; [reflexivity|].
  apply (proj1 (serializeTrack_kinds IsoMuxer.identityMatrix 1 2
                  IsoMuxer.h264AudioTrack _ eq_refl)).
  split; reflexivity.
Defined.

(** ** Tracks of an ISO-BMFF file *)
Section BaseMediaTrackFacts.
Import Js BaseMediaTrack.

Variables TrakBox TkhdBox VideoSampleEntry Descriptors Description CodecPrivate
  SampleAspectRatio DisplayAspectRatio AspectRatioApplied Color
  AudioCodec VideoCodec : Type.
Variable tkhdTrackId : TkhdBox -> Z.
Variable sampleWidth sampleHeight : VideoSampleEntry -> Z.
Variable getTkhdBox : TrakBox -> Result (option TkhdBox).
Variable getVideoDescriptors : TrakBox -> Result (option Descriptors).
Variable getTimescaleAndDuration : TrakBox -> Result (option TimescaleAndDuration).
Variable trakBoxContainsAudio trakBoxContainsVideo : TrakBox -> Result bool.
Variable getNumberOfChannelsFromTrak : TrakBox -> Result (option Z).
Variable getSampleRate : TrakBox -> Result (option Z).
Variable getAudioCodecStringFromTrak : TrakBox -> Result (string * option Description).
Variable getCodecPrivateFromTrak : TrakBox -> Result (option CodecPrivate).
Variable getAudioCodecFromTrack : TrakBox -> Result AudioCodec.
Variable getStsdVideoConfig : TrakBox -> Result (option VideoSampleEntry).
Variable getSampleAspectRatio : TrakBox -> Result SampleAspectRatio.
Variable getDisplayAspectRatio :
  SampleAspectRatio -> VideoSampleEntry -> Result DisplayAspectRatio.
Variable applyAspectRatios :
  VideoSampleEntry -> SampleAspectRatio -> DisplayAspectRatio -> Result AspectRatioApplied.
Variable applyTkhdBox : AspectRatioApplied -> TkhdBox -> Result Applied.
Variable getVideoCodecString : TrakBox -> Result (option string).
Variable getVideoPrivateData : TrakBox -> Result (option CodecPrivate).
Variable getIsoBmColrConfig : TrakBox -> Result (option Color).
Variable getVideoCodecFromIsoTrak : TrakBox -> Result VideoCodec.
Variable nullColor : Color.

(** Runs the calls of a hypothesis [H : ... = Ok _] one after the other,
    dropping the branches that throw. *)
Ltac run_calls H :=
  repeat
    (match type of H with
     | Js.bind ?r _ = _ =>
       let E := fresh "E" in destruct r eqn:E; simpl in H; try discriminate H
     | match ?o with Some _ => _ | None => _ end = _ =>
       let E := fresh "E" in destruct o eqn:E; simpl in H; try discriminate H
     | (if ?b then _ else _) = _ =>
       let E := fresh "E" in destruct b eqn:E; simpl in H; try discriminate H
     end).

(** Although its type admits [null], [makeBaseMediaTrack] never returns it:
    every call either throws or returns a track. *)
Theorem makeBaseMediaTrack_never_null trakBox :
  let make :=
    makeBaseMediaTrack TrakBox TkhdBox VideoSampleEntry Descriptors Description
      CodecPrivate SampleAspectRatio DisplayAspectRatio AspectRatioApplied Color
      AudioCodec VideoCodec tkhdTrackId sampleWidth sampleHeight getTkhdBox
      getVideoDescriptors getTimescaleAndDuration trakBoxContainsAudio
      trakBoxContainsVideo getNumberOfChannelsFromTrak getSampleRate
      getAudioCodecStringFromTrak getCodecPrivateFromTrak getAudioCodecFromTrack
      getStsdVideoConfig getSampleAspectRatio getDisplayAspectRatio applyAspectRatios
      applyTkhdBox getVideoCodecString getVideoPrivateData getIsoBmColrConfig
      getVideoCodecFromIsoTrak nullColor in
  (exists t, make trakBox = Ok (Some t)) \/ (exists msg, make trakBox = Throw msg).
Proof.
  intros make.
  destruct (make trakBox) as [[t|]|msg] eqn:H; [left; eauto | | right; eauto].
  exfalso. subst make.
  unfold makeBaseMediaTrack, makeAudioTrack, makeVideoTrack in H.
  run_calls H.
Qed.

(** A track returned for a [trak] carries the id of its [tkhd], the
    timescale of its media header and the [trak] itself; it is an audio
    track as soon as the [trak] contains audio, whether or not it also
    contains video, a video track when it contains video only, and an
    ['other'] track when it contains neither. *)
Theorem makeBaseMediaTrack_identity_and_kind trakBox t :
  let make :=
    makeBaseMediaTrack TrakBox TkhdBox VideoSampleEntry Descriptors Description
      CodecPrivate SampleAspectRatio DisplayAspectRatio AspectRatioApplied Color
      AudioCodec VideoCodec tkhdTrackId sampleWidth sampleHeight getTkhdBox
      getVideoDescriptors getTimescaleAndDuration trakBoxContainsAudio
      trakBoxContainsVideo getNumberOfChannelsFromTrak getSampleRate
      getAudioCodecStringFromTrak getCodecPrivateFromTrak getAudioCodecFromTrack
      getStsdVideoConfig getSampleAspectRatio getDisplayAspectRatio applyAspectRatios
      applyTkhdBox getVideoCodecString getVideoPrivateData getIsoBmColrConfig
      getVideoCodecFromIsoTrak nullColor in
  make trakBox = Ok (Some t) ->
  (exists tkhdBox timescaleAndDuration,
      getTkhdBox trakBox = Ok (Some tkhdBox)
      /\ getTimescaleAndDuration trakBox = Ok (Some timescaleAndDuration)
      /\ trackId _ _ _ _ _ _ _ _ t = tkhdTrackId tkhdBox
      /\ trackTimescale _ _ _ _ _ _ _ _ t = timescale timescaleAndDuration
      /\ trackTrakBox _ _ _ _ _ _ _ _ t = trakBox)
  /\ (isAudio _ _ _ _ _ _ _ _ t = true <-> trakBoxContainsAudio trakBox = Ok true)
  /\ (isVideo _ _ _ _ _ _ _ _ t = true
      <-> trakBoxContainsAudio trakBox = Ok false
          /\ trakBoxContainsVideo trakBox = Ok true)
  /\ (isOther _ _ _ _ _ _ _ _ t = true
      <-> trakBoxContainsAudio trakBox = Ok false
          /\ trakBoxContainsVideo trakBox = Ok false).
Proof.
  intros make H. subst make.
  unfold makeBaseMediaTrack, makeAudioTrack, makeVideoTrack in H.
  run_calls H; injection H as <-; simpl;
    repeat match goal with
           | E : negb ?b = _ |- _ => destruct b; simpl in E; try discriminate E
           end;
    (split; [eexists _, _; repeat split; reflexivity|]);
    repeat split; intros; try reflexivity; try discriminate;
    try match goal with H : _ /\ _ |- _ => destruct H; discriminate end.
Qed.

(** A video track always names a codec: a [trak] whose codec string is
    missing or empty yields no track.  Its coded size is the size of the
    sample entry, untouched by the aspect ratios and the track header. *)
Theorem makeBaseMediaTrack_video_codec_and_coded_size trakBox v :
  let make :=
    makeBaseMediaTrack TrakBox TkhdBox VideoSampleEntry Descriptors Description
      CodecPrivate SampleAspectRatio DisplayAspectRatio AspectRatioApplied Color
      AudioCodec VideoCodec tkhdTrackId sampleWidth sampleHeight getTkhdBox
      getVideoDescriptors getTimescaleAndDuration trakBoxContainsAudio
      trakBoxContainsVideo getNumberOfChannelsFromTrak getSampleRate
      getAudioCodecStringFromTrak getCodecPrivateFromTrak getAudioCodecFromTrack
      getStsdVideoConfig getSampleAspectRatio getDisplayAspectRatio applyAspectRatios
      applyTkhdBox getVideoCodecString getVideoPrivateData getIsoBmColrConfig
      getVideoCodecFromIsoTrak nullColor in
  make trakBox = Ok (Some (Video _ _ _ _ _ _ _ _ v)) ->
  v_codec _ _ _ _ _ _ v <> EmptyString
  /\ getVideoCodecString trakBox = Ok (Some (v_codec _ _ _ _ _ _ v))
  /\ exists videoSample,
       getStsdVideoConfig trakBox = Ok (Some videoSample)
       /\ v_codedWidth _ _ _ _ _ _ v = sampleWidth videoSample
       /\ v_codedHeight _ _ _ _ _ _ v = sampleHeight videoSample.
Proof.
  intros make H. subst make.
  unfold makeBaseMediaTrack, makeAudioTrack, makeVideoTrack in H.
  run_calls H; try discriminate H; injection H as <-; simpl.
  match goal with
  | E : falsyString ?codec = false |- _ =>
    destruct codec as [c|]; [|discriminate E];
    simpl in E; destruct (String.eqb_spec c EmptyString) as [|Hne]; [discriminate E|]
  end.
  split; [exact Hne|]. split; [reflexivity|].
  eexists. repeat split; reflexivity.
Qed.

End BaseMediaTrackFacts.

Lemma makeBaseMediaTrack_identity_and_kind_witness :
  exists t,
    BaseMediaTrack.toyMakeBaseMediaTrack BaseMediaTrack.audioAndVideoTrak = Js.Ok (Some t)
    /\ BaseMediaTrack.isAudio _ _ _ _ _ _ _ _ t = true
    /\ BaseMediaTrack.trackId _ _ _ _ _ _ _ _ t = 5.
Proof.
  destruct (BaseMediaTrack.toyMakeBaseMediaTrack BaseMediaTrack.audioAndVideoTrak)
    as [[t|]|] eqn:Hrun; try discriminate Hrun.
  exists t. split; [reflexivity|].
  unfold BaseMediaTrack.toyMakeBaseMediaTrack in Hrun.
  apply makeBaseMediaTrack_identity_and_kind in Hrun
    as ((tkhdBox & ts & Htk & _ & Hid & _) & Haudio & _).
  split.
  - apply Haudio. reflexivity.
  - rewrite Hid. injection Htk as <-. reflexivity.
Defined.

Lemma makeBaseMediaTrack_video_codec_and_coded_size_witness :
  exists v,
    BaseMediaTrack.toyMakeBaseMediaTrack BaseMediaTrack.videoOnlyTrak
    = Js.Ok (Some (BaseMediaTrack.Video _ _ _ _ _ _ _ _ v))
    /\ BaseMediaTrack.v_codec _ _ _ _ _ _ v <> EmptyString
    /\ BaseMediaTrack.v_codedWidth _ _ _ _ _ _ v = 1920.
Proof.
  destruct (BaseMediaTrack.toyMakeBaseMediaTrack BaseMediaTrack.videoOnlyTrak)
    as [[[a|o|v]|]|] eqn:Hrun; try discriminate Hrun.
  exists v. split; [reflexivity|].
  unfold BaseMediaTrack.toyMakeBaseMediaTrack in Hrun.
  apply makeBaseMediaTrack_video_codec_and_coded_size in Hrun
    as (Hcodec & _ & entry & Hentry & Hw & _).
  split; [exact Hcodec|].
  rewrite Hw. injection Hentry as <-. reflexivity.
Defined.

(** ** The preview of the conversion page *)
Section PreviewFacts.
Import ConvertUi.

Variable VideoFrame : Type.

Lemma preview_snoc (frames : list (bool * VideoFrame)) cf :
  preview VideoFrame (frames ++ [cf])
  = onVideoFrame VideoFrame (fst cf) (snd cf) (preview VideoFrame frames).
Proof. unfold preview. rewrite fold_left_app. reflexivity. Qed.

Lemma preview_count (frames : list (bool * VideoFrame)) :
  videoFrames _ (preview VideoFrame frames) = Z.of_nat (length frames).
Proof.
  induction frames as [|cf frames IH] using rev_ind; [reflexivity|].
  rewrite preview_snoc, length_app. change (length [cf]) with 1%nat.
  unfold onVideoFrame.
  destruct (Z.rem _ 15 =? 0); destruct (fst cf); cbn [videoFrames]; lia.
Qed.

Lemma preview_drawn (frames : list (bool * VideoFrame)) :
  drawn _ (preview VideoFrame frames)
  = omap (fun icf : nat * (bool * VideoFrame) =>
            if (Z.of_nat (fst icf) mod 15 =? 0) && fst (snd icf)
            then Some (snd (snd icf)) else None)
         (imap pair frames).
Proof.
  induction frames as [|[c frame] frames IH] using rev_ind; [reflexivity|].
  rewrite preview_snoc, imap_app, omap_app, <- IH.
  unfold onVideoFrame. rewrite preview_count.
  rewrite Z.rem_mod_nonneg by lia.
  cbn [imap fst snd]. rewrite Nat.add_0_r.
  change (omap ?g [?x]) with (match g x with Some y => [y] | None => [] end).
  cbn [fst snd].
  destruct (Z.of_nat (length frames) mod 15 =? 0); destruct c; cbn [andb drawn];
    rewrite ?app_nil_r; reflexivity.
Qed.

Lemma preview_invariant (frames : list (bool * VideoFrame)) :
  Forall (fun cf => fst cf = true) frames ->
  let p := preview VideoFrame frames in
  length (drawn _ p) = ((length frames + 14) / 15)%nat
  /\ forall j : nat, drawn _ p !! j = snd <$> frames !! (15 * j)%nat.
Proof.
  induction frames as [|[c frame] frames IH] using rev_ind; cbv zeta; intros Hall.
  - split; [reflexivity|]. intros j. rewrite !lookup_nil. reflexivity.
  - apply Forall_app in Hall. destruct Hall as [Hall Hc].
    inversion Hc as [|? ? Hc' _]. simpl in Hc'. subst c.
    cbv zeta in IH. destruct (IH Hall) as (Hlen & Hdrawn).
    rewrite preview_snoc, length_app. change (length [(true, frame)]) with 1%nat.
    unfold onVideoFrame. rewrite preview_count. rewrite Z.rem_mod_nonneg by lia.
    cbn [fst snd].
    set (n := length frames) in *.
    pose proof (Z.div_mod (Z.of_nat n) 15 ltac:(lia)) as Hzdiv.
    pose proof (Z.mod_pos_bound (Z.of_nat n) 15 ltac:(lia)) as Hzmod.
    pose proof (Nat.div_mod_eq (n + 14) 15) as Hd1.
    pose proof (Nat.mod_upper_bound (n + 14) 15 ltac:(lia)) as Hm1.
    pose proof (Nat.div_mod_eq (n + 1 + 14) 15) as Hd2.
    pose proof (Nat.mod_upper_bound (n + 1 + 14) 15 ltac:(lia)) as Hm2.
    destruct (Z.eqb_spec (Z.of_nat n mod 15) 0) as [Hz|Hnz]; cbn [videoFrames drawn].
    + assert (Hq : (length (drawn _ (preview VideoFrame frames)) * 15 = n)%nat)
        by (rewrite Hlen; lia).
      split.
      * rewrite length_app, Hlen. change (length [frame]) with 1%nat. lia.
      * intros j.
        destruct (Nat.lt_total j (length (drawn _ (preview VideoFrame frames))))
          as [Hlt|[Heq|Hgt]].
        -- rewrite lookup_app_l by exact Hlt.
           rewrite lookup_app_l by (fold n; lia). apply Hdrawn.
        -- subst j. rewrite lookup_app_r by lia. rewrite Nat.sub_diag.
           rewrite lookup_app_r by (fold n; lia).
           replace (15 * length (drawn _ (preview VideoFrame frames)) - length frames)%nat
             with 0%nat by (fold n; lia).
           reflexivity.
        -- rewrite (lookup_ge_None_2 (drawn _ (preview VideoFrame frames) ++ [frame]) j)
             by (rewrite length_app; simpl; lia).
           rewrite (lookup_ge_None_2 (frames ++ [(true, frame)]) (15 * j))
             by (rewrite length_app; simpl; fold n; lia).
           reflexivity.
    + split; [rewrite Hlen; lia|].
      intros j. rewrite Hdrawn.
      destruct (Nat.lt_total (15 * j) n) as [Hlt|[Heq|Hgt]].
      * rewrite lookup_app_l by (fold n; lia). reflexivity.
      * exfalso. apply Hnz. rewrite <- Heq.
        rewrite Nat2Z.inj_mul, Z.mul_comm. apply Z.mod_mul. lia.
      * rewrite (lookup_ge_None_2 frames (15 * j)) by (fold n; lia).
        rewrite (lookup_ge_None_2 (frames ++ [(true, frame)]) (15 * j))
          by (rewrite length_app; simpl; fold n; lia).
        reflexivity.
Qed.

(** While converting, the page counts every decoded frame, and the frames it
    hands to the canvas are, in order, exactly those whose number (from 0)
    is a multiple of 15 and at which [convertProgressRef.current] holds the
    canvas: a frame that is due while the ref is still [null] is not drawn,
    and no later frame makes up for it.  When the canvas is there at every
    frame, the frames drawn are those numbered 0, 15, 30, ..., that is
    [ceil (n / 15)] of [n]. *)
Theorem preview_draws_every_fifteenth_frame (frames : list (bool * VideoFrame)) :
  let p := preview VideoFrame frames in
  videoFrames _ p = Z.of_nat (length frames)
  /\ drawn _ p
     = omap (fun icf : nat * (bool * VideoFrame) =>
               if (Z.of_nat (fst icf) mod 15 =? 0) && fst (snd icf)
               then Some (snd (snd icf)) else None)
            (imap pair frames)
  /\ (Forall (fun cf => fst cf = true) frames ->
      length (drawn _ p) = ((length frames + 14) / 15)%nat
      /\ forall j : nat, drawn _ p !! j = snd <$> frames !! (15 * j)%nat).
Proof.
  cbv zeta. split; [apply preview_count|]. split; [apply preview_drawn|].
  apply preview_invariant.
Qed.

(** Thirty-one frames, the canvas mounting after the first: frame 0 is
    counted but not drawn, frames 15 and 30 are drawn. *)
Example preview_canvas_mounts_after_first_frame :
  let frames := (false, 0) :: List.map (fun i => (true, i)) (List.map Z.of_nat (seq 1 30)) in
  videoFrames _ (preview Z frames) = 31 /\ drawn _ (preview Z frames) = [15; 30].
Proof. cbv zeta. split; reflexivity. Qed.

End PreviewFacts.

Section ResolverOrder.
Import Js IsoBmff.

Variable tfhdOf : IsoBaseMediaBox -> option TfhdBox.
Variable tfdtOf : IsoBaseMediaBox -> option TfdtBox.
Variable trunsOf : IsoBaseMediaBox -> list TrunBox.

Lemma sumZ_take_nonneg (l : list Z) (k : nat) :
  Forall (fun d => 0 <= d) l -> 0 <= sumZ (take k l).
Proof.
  intros Hl. revert k. unfold sumZ.
  induction Hl as [|d l Hd Hl IH]; intros [|k]; simpl; try lia.
  specialize (IH k). lia.
Qed.

Lemma sumZ_take_mono (l : list Z) :
  Forall (fun d => 0 <= d) l ->
  forall j k : nat, (j <= k)%nat -> sumZ (take j l) <= sumZ (take k l).
Proof.
  intros Hl. induction Hl as [|d l Hd Hl IH]; intros [|j] [|k] Hjk;
    unfold sumZ in *; simpl; try lia.
  - pose proof (sumZ_take_nonneg l k Hl) as Hk. unfold sumZ in Hk. lia.
  - specialize (IH j k ltac:(lia)). lia.
Qed.

(** When no sample has a negative duration, the decode times of a fragment
    never go back: they start at [tfdt.baseMediaDecodeTime ?? 0] and are
    non-decreasing in emission order, across the runs of the fragment. *)
Theorem getSamplesFromTraf_dts_monotone traf moofOffset out (j k : nat) sj sk :
  getSamplesFromTraf tfhdOf tfdtOf trunsOf traf moofOffset = Ok out ->
  Forall (fun s => 0 <= duration s) out ->
  (j <= k)%nat ->
  out !! j = Some sj ->
  out !! k = Some sk ->
  nullish_or (baseMediaDecodeTime <$> tfdtOf traf) 0 <= dts sj <= dts sk.
Proof.
  intros Hrun Hnonneg Hjk Hj Hk.
  apply getSamplesFromTraf_Consumed in Hrun as (st & <- & _ & _ & _ & Hall).
  destruct (Hall j sj Hj) as (_ & _ & _ & Hdj & _).
  destruct (Hall k sk Hk) as (_ & _ & _ & Hdk & _).
  assert (Hd : Forall (fun d => 0 <= d) (map duration (acc_samples st))).
  { apply Forall_map. exact Hnonneg. }
  rewrite <- !firstn_map in Hdj, Hdk.
  pose proof (sumZ_take_nonneg _ j Hd).
  pose proof (sumZ_take_mono _ Hd j k Hjk).
  lia.
Qed.

End ResolverOrder.

Lemma getSamplesFromTraf_dts_monotone_witness :
  0 <= 1000 <= 3000.
Proof.
  apply (getSamplesFromTraf_dts_monotone
           IsoBmff.getTfhdBox IsoBmff.getTfdtBox IsoBmff.getTrunBoxes
           IsoBmff.twoRunsTraf 7000 _ 1%nat 3%nat
           {| IsoBmff.offset := 7110; IsoBmff.size := 20; IsoBmff.isKeyframe := false;
              IsoBmff.dts := 1000; IsoBmff.cts := 1000; IsoBmff.duration := 1000 |}
           {| IsoBmff.offset := 7560; IsoBmff.size := 40; IsoBmff.isKeyframe := false;
              IsoBmff.dts := 3000; IsoBmff.cts := 3000; IsoBmff.duration := 1000 |}
           eq_refl).
  - repeat constructor; simpl; lia.
  - lia.
  - reflexivity.
  - reflexivity.
Defined.
